(** * dns-server: resolution engine and lifecycle controller

    A shallow embedding of [src/lib/datatypes.py] ([DNSResolver], [DNSServer]),
    of the stand-alone copy of the resolver in [src/dns_server.py]
    ([RougeDNSServer]), of the control endpoint in [src/lib/api.py] and of the
    command line client [src/dnsserverctl.py], followed by the properties of
    the resolution order, of name normalisation and wildcard matching, of
    the start / stop / restart / configure state machine, and of the
    endpoint and the client.

    Layout: the Python string primitives the resolver uses, the dnslib
    interface it is written against, the two resolvers, the lifecycle
    controller with the part of configparser it relies on, the endpoint and
    the client, and then the facts about each of them. *)

From Stdlib Require Import NArith ZArith Lia Bool List Ascii String.
From stdpp Require Import base option list strings pretty gmap.

Local Open Scope string_scope.
Local Open Scope list_scope.

(** ** Python [str] methods used by the resolver

    A Python string is a list of characters.  The names the resolver sees
    are what dnslib renders of a wire-format name, taken here to be ASCII,
    where [str.lower] moves [A]..[Z] and nothing else; a character above 127
    is left alone by [lower_char]. *)
Module PyStr.

Abbreviation pystr := (list ascii).

(** A literal, written as a Rocq string. *)
Definition chars (s : string) : pystr := list_ascii_of_string s.

Definition dot : ascii := "."%char.

Definition is_dot (c : ascii) : bool := Ascii.eqb c dot.

(** One character of [str.lower()]. *)
Definition lower_char (c : ascii) : ascii :=
  let n := N_of_ascii c in
  if ((65 <=? n) && (n <=? 90))%N then ascii_of_N (n + 32) else c.

(** [s.lower()] *)
Definition lower (s : pystr) : pystr := map lower_char s.

(** [s.rstrip(".")]: every trailing dot is removed. *)
Fixpoint rstrip_dot (s : pystr) : pystr :=
  match s with
  | [] => []
  | c :: t =>
      match rstrip_dot t with
      | [] => if is_dot c then [] else [c]
      | t' => c :: t'
      end
  end.

(** [s.split(".")]: the pieces between dots; the empty string has one
    (empty) piece, so the result is never the empty list. *)
Fixpoint split_dot (s : pystr) : list pystr :=
  match s with
  | [] => [[]]
  | c :: t =>
      if is_dot c then [] :: split_dot t
      else match split_dot t with
           | w :: ws => (c :: w) :: ws
           | [] => [[c]]
           end
  end.

(** [s.startswith(p)] *)
Fixpoint startswith (s p : pystr) {struct p} : bool :=
  match p, s with
  | [], _ => true
  | a :: p', b :: s' => Ascii.eqb a b && startswith s' p'
  | _ :: _, [] => false
  end.

(** [s.endswith(p)] *)
Definition endswith (s p : pystr) : bool := startswith (rev s) (rev p).

(** [s[n:]] *)
Definition slice_from (n : nat) (s : pystr) : pystr := drop n s.

End PyStr.

(** ** Name normalisation and wildcard matching

    The two helpers nested in [resolve]; both copies of the resolver define
    them with the same text. *)
Module Names.
Import PyStr.

(** [normalize(name)]: [name.lower().rstrip(".") + "."] *)
Definition normalize (name : pystr) : pystr :=
  rstrip_dot (lower name) ++ [dot].

(** [wildcard_match(qname, rname)] *)
Definition wildcard_match (qname rname : pystr) : bool :=
  if negb (startswith rname (chars "*.")) then false
  else
    let suffix := slice_from 2 rname in
    if negb (endswith qname suffix) then false
    else
      let qlabels := split_dot (rstrip_dot qname) in
      let slabels := split_dot (rstrip_dot suffix) in
      if (length qlabels =? length slabels + 1)%nat then true else false.

End Names.

(** ** Exceptions and the state-and-exception monad

    A Python exception is its class and its message.  A computation reads
    and writes a state [S] (the object [self] together with whatever part of
    the outside world it touches) and either returns a value or raises. *)
Module Py.

Inductive exn_class : Set :=
  | StateChangeError      (* lib/exceptions.py *)
  | ConfigurationError    (* lib/exceptions.py *)
  | KeyError
  | AttributeError
  | ValueError
  | OSError
  | DNSError.

Record exn : Set := Exn { exn_class_of : exn_class; message : string }.

Definition M (S A : Type) : Type := S -> (exn + A) * S.

Definition ret {S A} (a : A) : M S A := fun s => (inr a, s).

Definition bind {S A B} (m : M S A) (k : A -> M S B) : M S B :=
  fun s =>
    match m s with
    | (inr a, s') => k a s'
    | (inl e, s') => (inl e, s')
    end.

(** [raise e] *)
Definition raise {S A} (e : exn) : M S A := fun s => (inl e, s).

(** [try: m  except Exception as e: h e]; the state changes made by [m]
    before it raised stay. *)
Definition try_except {S A} (m : M S A) (h : exn -> M S A) : M S A :=
  fun s =>
    match m s with
    | (inr a, s') => (inr a, s')
    | (inl e, s') => h e s'
    end.

Definition get {S} : M S S := fun s => (inr s, s).
Definition modify {S} (f : S -> S) : M S unit := fun s => (inr tt, f s).

(** A library call that returns or raises without touching the state. *)
Definition lift {S A} (r : exn + A) : M S A := fun s => (r, s).

(** A library call made for its effect: [None] when it returns. *)
Definition lift_unit {S} (r : option exn) : M S unit :=
  fun s => (match r with Some e => inl e | None => inr tt end, s).

(** The monad operations, for stdpp's [x ← m; k] and [m;; k]. *)
#[export] Instance M_ret {S} : MRet (M S) := fun A a => ret a.
#[export] Instance M_bind {S} : MBind (M S) := fun A B k m => bind m k.

(** Unfolds the monad, leaving the calls of the program in place. *)
Ltac run_py :=
  cbv beta delta [mbind M_bind mret M_ret bind ret get modify lift lift_unit
                  try_except raise] iota.

(** A call that waits for the outside world can, besides returning and
    raising, never return.  [Blocked] is no exception: no handler sees it and
    nothing after it runs; the state beside it is the one in which the call
    waits. *)
Inductive stopped : Set :=
  | Raised (e : exn)
  | Blocked.

Definition MB (S A : Type) : Type := S -> (stopped + A) * S.

Definition ret_mb {S A} (a : A) : MB S A := fun s => (inr a, s).

Definition bind_mb {S A B} (m : MB S A) (k : A -> MB S B) : MB S B :=
  fun s =>
    match m s with
    | (inr a, s') => k a s'
    | (inl e, s') => (inl e, s')
    end.

(** A computation that cannot wait, among those that can. *)
Definition nonblocking {S A} (m : M S A) : MB S A :=
  fun s =>
    match m s with
    | (inr a, s') => (inr a, s')
    | (inl e, s') => (inl (Raised e), s')
    end.

(** [try: m  except Exception: h e] around calls that can wait: the handler
    runs for an exception and for nothing else. *)
Definition try_except_mb {S A} (m : MB S A) (h : exn -> MB S A) : MB S A :=
  fun s =>
    match m s with
    | (inl (Raised e), s') => h e s'
    | (inl Blocked, s') => (inl Blocked, s')
    | (inr a, s') => (inr a, s')
    end.

#[export] Instance MB_ret {S} : MRet (MB S) := fun A a => ret_mb a.
#[export] Instance MB_bind {S} : MBind (MB S) := fun A B k m => bind_mb m k.

Ltac run_mb :=
  cbv beta delta [mbind MB_bind mret MB_ret bind_mb ret_mb nonblocking
                  try_except_mb M_bind M_ret bind ret get modify lift lift_unit
                  try_except raise] iota.

End Py.

(** ** The dnslib interface

    The records of dnslib the resolver handles, with the fields it reads or
    writes, and the three library functions whose tables and wire format are
    not part of this repository. *)
Module Dnslib.
Import PyStr Py.

(** A resource record ([dnslib.RR]); [rname] is [str(rr.rname)]. *)
Record RR : Set := mkRR {
  rname : pystr;
  rtype : N;
  rclass : N;
  ttl : N;
  rdata : pystr;
}.

(** The question of a request; [qname] is [str(request.q.qname)]. *)
Record DNSQuestion : Set := mkQ {
  qname : pystr;
  qtype : N;
  qclass : N;
}.

Record DNSHeader : Set := mkHeader {
  id : N;
  qr : bool;
  aa : bool;
  ra : bool;
}.

(** [dnslib.DNSRecord]: a request or a response. *)
Record DNSRecord : Set := mkRecord {
  header : DNSHeader;
  q : DNSQuestion;
  rr : list RR;
}.

(** [reply.add_answer(rr)] *)
Definition add_answer (reply : DNSRecord) (r : RR) : DNSRecord :=
  {| header := header reply; q := q reply; rr := rr reply ++ [r] |}.

(** [reply.header.aa = 1] *)
Definition set_aa (reply : DNSRecord) : DNSRecord :=
  {| header := {| id := id (header reply); qr := qr (header reply);
                  aa := true; ra := ra (header reply) |};
     q := q reply; rr := rr reply |}.

(** What the resolver takes from the library: the table [QTYPE] from type
    numbers to mnemonics, the header [request.reply()] gives its response,
    and the wire parser [DNSRecord.parse]. *)
Class Lib : Type := {
  QTYPE : N -> string;
  reply_header : DNSHeader -> DNSHeader;
  DNSRecord_parse : list Byte.byte -> exn + DNSRecord;
}.

(** [request.reply()]: a response to the same question, with no answer yet. *)
Definition DNSRecord_reply `{Lib} (request : DNSRecord) : DNSRecord :=
  {| header := reply_header (header request); q := q request; rr := [] |}.

(** The request handler; the resolver reads [handler.client_address[0]]. *)
Record DNSHandler : Set := mkHandler { client_address : string * N }.

(** One [request.send(dest, port, tcp=...)]. *)
Record Datagram : Set := mkDatagram {
  dg_dest : string;
  dg_port : Z;
  dg_tcp : bool;
  dg_payload : DNSRecord;
}.

(** What becomes of one transaction.  [send] is called without a timeout
    and nothing in the program sets one, so it waits on a blocking socket:
    it raises when the datagram cannot go out, it returns the bytes of the
    first datagram that arrives, and when none arrives it never returns. *)
Inductive outcome : Set :=
  | Raises (e : exn)
  | Receives (bytes : list Byte.byte)
  | Silent.

(** The network as the resolver meets it: the outcome of each transaction
    still to come and the log of what was sent.  With no outcome left nobody
    answers. *)
Record Net : Type := mkNet {
  outcomes : list outcome;
  sent : list Datagram;
}.

(** [sendto] refused by the kernel. *)
Definition unreachable : exn := Exn OSError "[Errno 101] Network is unreachable".

End Dnslib.

(** ** The resolver ([DNSResolver] in lib/datatypes.py, [RougeDNSServer] in
    dns_server.py)

    The two classes differ in how the record sets reach them
    ([DNSResolver.__init__] reads them from the configured files, see
    [Lifecycle.DNSResolver_init]; [RougeDNSServer.__init__] is handed them) and
    in the lines [RougeDNSServer] writes to the logger it was given; the
    rest of [resolve] is the same text in both.  This module is [resolve]
    without those lines, which is [DNSResolver.resolve]; [Rouge.resolve]
    below has them. *)
Module Resolver.
Import PyStr Names Py Dnslib.

Record DNSResolver : Type := mkResolver {
  dns_zone_records : list RR;
  dns_override_records : list RR;
  primary_upstream : string;
  backup_upstream : string;
  query : nat;
}.

(** The state [resolve] runs in: the resolver object and the network. *)
Record World : Type := mkWorld {
  self : DNSResolver;
  net : Net;
}.

(** [self.query = self.query + 1] *)
Definition incr_query : M World unit :=
  modify (fun w =>
    {| self := {| dns_zone_records := dns_zone_records (self w);
                  dns_override_records := dns_override_records (self w);
                  primary_upstream := primary_upstream (self w);
                  backup_upstream := backup_upstream (self w);
                  query := query (self w) + 1 |};
       net := net w |}).

(** [request.send(upstream, port, tcp=tcp)] *)
Definition send (request : DNSRecord) (upstream : string) (port : Z) (tcp : bool)
  : MB World (list Byte.byte) :=
  fun w =>
    let log := sent (net w) ++ [mkDatagram upstream port tcp request] in
    let w' := {| self := self w; net := mkNet (tl (outcomes (net w))) log |} in
    match outcomes (net w) with
    | Raises e :: _ => (inl (Raised e), w')
    | Receives bytes :: _ => (inr bytes, w')
    | Silent :: _ | [] => (inl Blocked, w')
    end.

Section WithLib.
Context `{Lib}.

(** [qtype in (QTYPE[rr.rtype], "ANY")] *)
Definition type_match (qtype : string) (r : RR) : bool :=
  bool_decide (qtype = QTYPE (rtype r)) || bool_decide (qtype = "ANY").

(** The body of the loop over the override records: the two lists
    [exact_matches] and [wildcard_matches] after one more record. *)
Definition scan_override (qname : pystr) (qtype : string)
    (acc : list RR * list RR) (r : RR) : list RR * list RR :=
  if negb (type_match qtype r) then acc
  else if bool_decide (qname = normalize (rname r)) then (fst acc ++ [r], snd acc)
  else if wildcard_match qname (normalize (rname r)) then (fst acc, snd acc ++ [r])
  else acc.

(** [exact_matches or wildcard_matches] *)
Definition or_list {A} (l1 l2 : list A) : list A :=
  match l1 with [] => l2 | _ :: _ => l1 end.

(** The override tier: the reply it returns, or [None] when the code falls
    through to the zone tier. *)
Definition override_tier (overrides : list RR) (qname : pystr) (qtype : string)
    (reply : DNSRecord) : option DNSRecord :=
  match overrides with
  | [] => None
  | _ :: _ =>
      let '(exact_matches, wildcard_matches) :=
        fold_left (scan_override qname qtype) overrides ([], []) in
      let matches := or_list exact_matches wildcard_matches in
      match matches with
      | [] => None
      | _ :: _ => Some (fold_left add_answer matches reply)
      end
  end.

(** The zone tier: the loop returns at the first record that matches. *)
Fixpoint zone_tier (zone : list RR) (qname : pystr) (qtype : string)
    (reply : DNSRecord) : option DNSRecord :=
  match zone with
  | [] => None
  | r :: rest =>
      if type_match qtype r && bool_decide (qname = normalize (rname r))
      then Some (set_aa (add_answer reply r))
      else zone_tier rest qname qtype reply
  end.

(** The upstream tier: the loop over [(primary_upstream, backup_upstream)];
    an attempt that raises, in [send] or in [parse], moves on to the next
    upstream, and past the last one the method returns [None]; an attempt
    whose [send] waits for ever is where the method stays. *)
Fixpoint upstream_tier (upstreams : list string) (request : DNSRecord)
  : MB World (option DNSRecord) :=
  match upstreams with
  | [] => nonblocking incr_query;; mret None
  | upstream :: rest =>
      try_except_mb
        (upstream_response ← send request upstream 53 false;
         nonblocking incr_query;;
         response ← nonblocking (lift (DNSRecord_parse upstream_response));
         mret (Some response))
        (fun _ => upstream_tier rest request)
  end.

(** [resolve(self, request, handler)]; [None] is the method falling off its
    end without a reply. *)
Definition resolve (request : DNSRecord) (handler : DNSHandler)
  : MB World (option DNSRecord) :=
  let qname := normalize (rstrip_dot (qname (q request))) in
  let qtype := QTYPE (qtype (q request)) in
  let client_ip := fst (client_address handler) in
  let reply := DNSRecord_reply request in
  w ← nonblocking get;
  match override_tier (dns_override_records (self w)) qname qtype reply with
  | Some reply' => nonblocking incr_query;; mret (Some reply')
  | None =>
      match zone_tier (dns_zone_records (self w)) qname qtype reply with
      | Some reply' => nonblocking incr_query;; mret (Some reply')
      | None =>
          upstream_tier [primary_upstream (self w); backup_upstream (self w)] request
      end
  end.

End WithLib.

End Resolver.

(** ** The stand-alone resolver ([RougeDNSServer] in dns_server.py)

    The same tiers, with a line written to [self.logger] on entry, before
    each local reply, after each [send] that returned and in the handler of
    each failed attempt.  The logger is the one handed to the constructor,
    whose default is [None]. *)
Module Rouge.
Import PyStr Names Py Dnslib Resolver.

Inductive level : Set := INFO | WARNING.

(** A [logging.Logger], kept as the records written to it. *)
Definition Logger : Set := list (level * string).

(** The object and the network: the fields the class shares with
    [DNSResolver], the network, and [self.logger]. *)
Record RougeWorld : Type := mkRouge {
  base : World;
  logger : option Logger;
}.

(** [RougeDNSServer.__init__(self, dns_zone_records, dns_override_records,
    primary_upstream, backup_upstream, logger=None)], on a given network. *)
Definition RougeDNSServer_init (zone overrides : list RR) (primary backup : string)
    (logger : option Logger) (n : Net) : RougeWorld :=
  {| base := mkWorld (mkResolver zone overrides primary backup 0) n;
     logger := logger |}.

(** A part of [resolve] that does not touch the logger. *)
Definition on_base {A} (m : MB World A) : MB RougeWorld A :=
  fun w =>
    match m (base w) with
    | (r, b) => (r, {| base := b; logger := logger w |})
    end.

(** [f"[DNS Query (No. {self.query})] {text}"] *)
Definition numbered (n : nat) (text : string) : string :=
  "[DNS Query (No. " +:+ pretty n +:+ ")] " +:+ text.

(** [self.logger.info(...)] and [self.logger.warning(...)] with the text
    after the query number; the attribute is looked up on [self.logger]
    first, which fails on [None]. *)
Definition log_call (l : level) (text : string) : MB RougeWorld unit :=
  fun w =>
    match logger w with
    | None =>
        (inl (Raised (Exn AttributeError
                        ("'NoneType' object has no attribute '"
                         +:+ match l with INFO => "info" | WARNING => "warning" end
                         +:+ "'"))), w)
    | Some records =>
        (inr tt,
         {| base := base w;
            logger := Some (records ++ [(l, numbered (query (self (base w))) text)]) |})
    end.

Section WithLib.
Context `{Lib}.

(** The loop over the two upstreams. *)
Fixpoint upstream_tier (upstreams : list string) (request : DNSRecord)
  : MB RougeWorld (option DNSRecord) :=
  match upstreams with
  | [] => on_base (nonblocking incr_query);; mret None
  | upstream :: rest =>
      try_except_mb
        (upstream_response ← on_base (send request upstream 53 false);
         log_call INFO
           ("Queried domain not present in zones file, forwarding to upstream DNS server at "
            +:+ upstream);;
         on_base (nonblocking incr_query);;
         response ← on_base (nonblocking (lift (DNSRecord_parse upstream_response)));
         mret (Some response))
        (fun _ =>
           log_call WARNING
             ("Failed to get response from upstream DNS server at " +:+ upstream);;
           upstream_tier rest request)
  end.

(** [resolve(self, request, handler)] *)
Definition resolve (request : DNSRecord) (handler : DNSHandler)
  : MB RougeWorld (option DNSRecord) :=
  let qname := normalize (rstrip_dot (qname (q request))) in
  let qtype := QTYPE (qtype (q request)) in
  let client_ip := fst (client_address handler) in
  let reply := DNSRecord_reply request in
  log_call INFO
    ("Got DNS query from " +:+ client_ip +:+ " of type " +:+ qtype +:+ " for "
     +:+ string_of_list_ascii qname +:+ "!");;
  w ← on_base (nonblocking get);
  match override_tier (dns_override_records (self w)) qname qtype reply with
  | Some reply' =>
      log_call INFO
        "Override record exists for this domain and query type, resolving from override records";;
      on_base (nonblocking incr_query);;
      mret (Some reply')
  | None =>
      match zone_tier (dns_zone_records (self w)) qname qtype reply with
      | Some reply' =>
          log_call INFO "Queried domain present in zones file, resolved locally";;
          on_base (nonblocking incr_query);;
          mret (Some reply')
      | None =>
          upstream_tier [primary_upstream (self w); backup_upstream (self w)] request
      end
  end.

End WithLib.

End Rouge.

(** ** The lifecycle controller ([DNSServer] in lib/datatypes.py) *)
Module Lifecycle.
Import PyStr Py Dnslib Resolver.

(** A [configparser.ConfigParser] used through its mapping protocol: what
    the parser stores, sections by name and in each section the options by
    name, each with its text as written.  An assignment is checked by the
    parser before it is stored ([before_set] below).  A read hands the
    stored text through the parser's interpolation, which leaves text
    without a percent sign as it is; reads are modelled for such text. *)
Abbreviation ConfigParser := (gmap string (gmap string string)).

(** [str(KeyError(key))], for a key without quotes or backslashes. *)
Definition key_error (key : string) : exn := Exn KeyError ("'" +:+ key +:+ "'").

(** [config[section][option]] *)
Definition config_get {S} (config : ConfigParser) (section option : string)
  : M S string :=
  match config !! section with
  | None => raise (key_error section)
  | Some sec =>
      match sec !! option with
      | None => raise (key_error option)
      | Some v => mret v
      end
  end.

Definition is_percent (c : ascii) : bool := Ascii.eqb c "%".

(** [value.replace("%%", "")]: every pair of percent signs is taken out,
    from the left. *)
Fixpoint drop_escaped_percent (s : string) : string :=
  match s with
  | EmptyString => EmptyString
  | String c rest =>
      match rest with
      | String c' rest' =>
          if is_percent c && is_percent c' then drop_escaped_percent rest'
          else String c (drop_escaped_percent rest)
      | EmptyString => String c EmptyString
      end
  end.

(** After [%(]: the characters up to the first [)], at least one, and then
    [)s]; the length of the name together with [)s]. *)
Fixpoint reference_tail (name_length : nat) (s : string) : option nat :=
  match s with
  | EmptyString => None
  | String c rest =>
      if Ascii.eqb c ")"
      then match name_length, rest with
           | S _, String c' _ => if Ascii.eqb c' "s" then Some (name_length + 2) else None
           | _, _ => None
           end
      else reference_tail (S name_length) rest
  end.

(** The length of the match of [%\(([^)]+)\)s] at the start of [s]. *)
Definition reference_length (s : string) : option nat :=
  match s with
  | String c (String c' body) =>
      if is_percent c && Ascii.eqb c' "("
      then (fun n => n + 2) <$> reference_tail 0 body
      else None
  | _ => None
  end.

(** [_KEYCRE.sub("", s)]: every match is taken out, from the left; [skip]
    is what is left to take out of the match under way. *)
Fixpoint drop_references (skip : nat) (s : string) : string :=
  match s with
  | EmptyString => EmptyString
  | String c rest =>
      match skip with
      | S k => drop_references k rest
      | O =>
          match reference_length s with
          | Some n => drop_references (n - 1) rest
          | None => String c (drop_references 0 rest)
          end
      end
  end.

(** [s.find("%")], [None] for -1. *)
Fixpoint find_percent (s : string) : option nat :=
  match s with
  | EmptyString => None
  | String c rest => if is_percent c then Some 0 else S <$> find_percent rest
  end.

(** [BasicInterpolation.before_set(parser, section, option, value)]: the
    check of a value on assignment.  The message quotes the value as [repr]
    does for text without quotes, backslashes and control characters. *)
Definition before_set (value : string) : exn + string :=
  let tmp_value := drop_references 0 (drop_escaped_percent value) in
  match find_percent tmp_value with
  | Some position =>
      inl (Exn ValueError ("invalid interpolation syntax in '" +:+ value
                           +:+ "' at position " +:+ pretty position))
  | None => inr value
  end.

(** [config[section][option] = value]: the section is looked up; the value,
    unless it is empty, is checked; then it is stored. *)
Definition config_set (config : ConfigParser) (section option value : string)
  : exn + ConfigParser :=
  match config !! section with
  | None => inl (key_error section)
  | Some sec =>
      match (if bool_decide (value = "") then inr value else before_set value) with
      | inl e => inl e
      | inr value' => inr (<[section := <[option := value']> sec]> config)
      end
  end.

(** The listener object ([dnslib.server.DNSServer]) with what it was built
    from. *)
Record dnslib_DNSServer : Type := mkListener {
  server_resolver : DNSResolver;
  server_port : Z;
  server_address : string;
}.

(** What the controller asks of the interpreter, the file system and the
    sockets at the moment of a call; every entry may raise. *)
Record Host : Type := mkHost {
  (** [int(s)] *)
  int : string -> exn + Z;
  (** [open(path, "r")] and [list(ZoneParser(f).parse())] *)
  read_zone : string -> exn + list RR;
  (** the constructor of the listener, which binds [address:port] *)
  listen : Z -> string -> option exn;
  (** [server.start_thread()] *)
  start_thread : dnslib_DNSServer -> option exn;
  (** [server.stop()] *)
  stop_server : dnslib_DNSServer -> option exn;
}.

(** [DNSResolver.__init__(self, config, logger)] *)
Definition DNSResolver_init {S} (host : Host) (config : ConfigParser)
  : M S DNSResolver :=
  primary ← config_get config "DNS" "primary_upstream";
  backup ← config_get config "DNS" "backup_upstream";
  zone_file_path ← config_get config "DNS" "zone_file";
  zone ← lift (read_zone host zone_file_path);
  override_file_path ← config_get config "DNS" "override_file";
  overrides ← lift (read_zone host override_file_path);
  mret {| dns_zone_records := zone; dns_override_records := overrides;
          primary_upstream := primary; backup_upstream := backup; query := 0 |}.

Record DNSServer : Type := mkServer {
  config : ConfigParser;
  state : string;
  dns_server : option dnslib_DNSServer;
}.

(** [DNSServer.__init__(self, config, logger)] *)
Definition DNSServer_init (config : ConfigParser) : DNSServer :=
  {| config := config; state := "not running"; dns_server := None |}.

Definition set_state (v : string) (s : DNSServer) : DNSServer :=
  {| config := config s; state := v; dns_server := dns_server s |}.

Definition set_dns_server (v : dnslib_DNSServer) (s : DNSServer) : DNSServer :=
  {| config := config s; state := state s; dns_server := Some v |}.

Definition set_config (v : ConfigParser) (s : DNSServer) : DNSServer :=
  {| config := v; state := state s; dns_server := dns_server s |}.

(** [_start_dns_server(self)] *)
Definition _start_dns_server (host : Host) : M DNSServer unit :=
  self ← get;
  resolver ← DNSResolver_init host (config self);
  lport ← config_get (config self) "DNS" "lport";
  port ← lift (int host lport);
  address ← config_get (config self) "DNS" "laddr";
  lift_unit (listen host port address);;
  let server := mkListener resolver port address in
  modify (set_dns_server server);;
  lift_unit (start_thread host server);;
  modify (set_state "running");;
  mret tt.

(** [_stop_dns_server(self)] *)
Definition _stop_dns_server (host : Host) : M DNSServer unit :=
  self ← get;
  match dns_server self with
  | None => raise (Exn AttributeError "'NoneType' object has no attribute 'stop'")
  | Some server => lift_unit (stop_server host server)
  end;;
  modify (set_state "not running");;
  mret tt.

(** [_restart_dns_server(self)] *)
Definition _restart_dns_server (host : Host) : M DNSServer unit :=
  _stop_dns_server host;;
  _start_dns_server host;;
  mret tt.

(** [raise exceptions.StateChangeError(f"{text}{err_msg}")] *)
Definition state_change_error {A} (text : string) (err : option exn)
  : M DNSServer A :=
  raise (Exn StateChangeError
           (text ++ match err with Some e => message e | None => "" end)).

(** [start(self)] *)
Definition start (host : Host) : M DNSServer unit :=
  self ← get;
  if bool_decide (state self = "running")
  then state_change_error "DNS server is already started!" None
  else
    try_except (_start_dns_server host)
      (fun err_msg => state_change_error
         "Encountered an exception when trying to start DNS server! Error message: "
         (Some err_msg));;
    mret tt.

(** [stop(self)] *)
Definition stop (host : Host) : M DNSServer unit :=
  self ← get;
  if bool_decide (state self = "not running")
  then state_change_error "DNS server is already stopped!" None
  else
    try_except (_stop_dns_server host)
      (fun err_msg => state_change_error
         "Encountered an exception when trying to stop DNS server! Error message: "
         (Some err_msg));;
    mret tt.

(** [restart(self)] *)
Definition restart (host : Host) : M DNSServer unit :=
  self ← get;
  if bool_decide (state self = "not running")
  then state_change_error "DNS server has not been started!" None
  else
    try_except (_restart_dns_server host)
      (fun err_msg => state_change_error
         "Encountered an exception when trying to restart DNS server! Error message: "
         (Some err_msg));;
    mret tt.

(** The tuple of setting names [configure] accepts. *)
Definition settings : list string :=
  ["zone_file"; "override_file"; "primary_upstream"; "backup_upstream";
   "laddr"; "lport"; "ttl"].

(** [configure(self, setting, value)] *)
Definition configure (setting value : string) : M DNSServer unit :=
  if bool_decide (setting ∈ settings)
  then
    self ← get;
    config' ← lift (config_set (config self) "DNS" setting value);
    modify (set_config config');;
    mret tt
  else raise (Exn ConfigurationError ("Invalid setting '" ++ setting ++ "'!")).

(** The calls the control endpoint makes. *)
Inductive call : Type :=
  | Start
  | Stop
  | Restart
  | Configure (setting value : string).

Definition run (host : Host) (c : call) : M DNSServer unit :=
  match c with
  | Start => start host
  | Stop => stop host
  | Restart => restart host
  | Configure setting value => configure setting value
  end.

(** The controllers that exist: a fresh one, and one after any call, under
    any host, whether the call returned or raised. *)
Inductive reachable : DNSServer -> Prop :=
  | reachable_init (cfg : ConfigParser) : reachable (DNSServer_init cfg)
  | reachable_call (host : Host) (c : call) (s : DNSServer) :
      reachable s -> reachable (snd (run host c s)).

(** The invariant of the controller. *)
Definition state_ok (s : DNSServer) : Prop :=
  (state s = "not running" \/ state s = "running")
  /\ (state s = "running" -> dns_server s <> None).

End Lifecycle.

(** ** The vocabulary of the properties

    The notions the statements below are written in: which records match a
    query, what the labels of a name are, and when two spellings denote the
    same name. *)
Module Spec.
Import PyStr Names Py Dnslib Resolver.

(** The name [resolve] compares the records with:
    [normalize(str(request.q.qname).rstrip("."))]. *)
Definition query_name (request : DNSRecord) : pystr :=
  normalize (rstrip_dot (qname (q request))).

(** A type match whose normalised owning name is the query name. *)
Definition exact_match `{Lib} (qname : pystr) (qtype : string) (r : RR) : bool :=
  type_match qtype r && bool_decide (qname = normalize (rname r)).

(** A type match that is no exact match and matches as a wildcard. *)
Definition wildcard_only_match `{Lib} (qname : pystr) (qtype : string) (r : RR)
  : bool :=
  type_match qtype r && negb (bool_decide (qname = normalize (rname r)))
  && wildcard_match qname (normalize (rname r)).

(** A record the override tier can answer with. *)
Definition override_match `{Lib} (qname : pystr) (qtype : string) (r : RR) : bool :=
  exact_match qname qtype r || wildcard_only_match qname qtype r.

(** The labels of a domain name: the pieces between its dots, trailing dots
    apart; the root name has none. *)
Definition labels (name : pystr) : list pystr :=
  match rstrip_dot name with
  | [] => []
  | s => split_dot s
  end.

(** Two characters that are equal or the two cases of one letter. *)
Definition is_upper (c : ascii) : Prop :=
  (65 <= N_of_ascii c <= 90)%N.

Definition case_variant (x y : ascii) : Prop :=
  x = y
  \/ (is_upper x /\ N_of_ascii y = (N_of_ascii x + 32)%N)
  \/ (is_upper y /\ N_of_ascii x = (N_of_ascii y + 32)%N).

(** Two spellings that differ only in letter case and in trailing dots. *)
Definition same_spelling (a b : pystr) : Prop :=
  exists a0 b0 j k,
    a = a0 ++ repeat dot j /\ b = b0 ++ repeat dot k /\ Forall2 case_variant a0 b0.

(** What one upstream transaction yields: the parsed response, when one
    arrived and [parse] took it. *)
Definition attempt `{Lib} (o : outcome) : option DNSRecord :=
  match o with
  | Receives bytes =>
      match DNSRecord_parse bytes with
      | inl _ => None
      | inr response => Some response
      end
  | Raises _ | Silent => None
  end.

(** A transaction that fails where the resolver sees it: [send] raised, or
    the bytes that arrived were refused by [parse].  A transaction nobody
    answers is none of these. *)
Definition failed `{Lib} (o : outcome) : bool :=
  match o with
  | Raises _ => true
  | Receives bytes =>
      match DNSRecord_parse bytes with
      | inl _ => true
      | inr _ => false
      end
  | Silent => false
  end.

(** The outcome of the [i]-th transaction from now. *)
Definition outcome_at (n : Net) (i : nat) : outcome :=
  nth i (outcomes n) Silent.

(** The datagram [resolve] sends to an upstream. *)
Definition forwarded (request : DNSRecord) (upstream : string) : Datagram :=
  mkDatagram upstream 53 false request.

(** The records the override tier answers with: the exact matches, or the
    wildcard matches when there is no exact match, in the order of the
    override set. *)
Definition winners `{Lib} (qname : pystr) (qtype : string) (overrides : list RR)
  : list RR :=
  or_list (List.filter (exact_match qname qtype) overrides)
          (List.filter (wildcard_only_match qname qtype) overrides).

(** The resolver object after [k] increments of its query counter. *)
Definition bumped (k : nat) (slf : DNSResolver) : DNSResolver :=
  {| dns_zone_records := dns_zone_records slf;
     dns_override_records := dns_override_records slf;
     primary_upstream := primary_upstream slf;
     backup_upstream := backup_upstream slf;
     query := query slf + k |}.

(** Text without a percent sign, which the configuration parser stores and
    reads back as it is. *)
Definition plain (value : string) : bool :=
  match Lifecycle.find_percent value with
  | None => true
  | Some _ => false
  end.

End Spec.

(** ** A small instance of the library and of the host, to run the model on *)
Module Sample.
Import PyStr Names Py Dnslib Resolver Lifecycle.

Definition qtype_table (n : N) : string :=
  match n with
  | 1 => "A"
  | 2 => "NS"
  | 5 => "CNAME"
  | 28 => "AAAA"
  | 255 => "ANY"
  | _ => "TYPE" +:+ pretty n
  end%N.

(** A response is read from its first byte; no byte at all is malformed. *)
Definition response_of (b : Byte.byte) : DNSRecord :=
  {| header := mkHeader (Byte.to_N b) true false true;
     q := mkQ (chars "google.com.") 1 1;
     rr := [mkRR (chars "google.com.") 1 1 300 (chars "142.250.0.1")] |}.

Definition parse (bytes : list Byte.byte) : exn + DNSRecord :=
  match bytes with
  | [] => inl (Exn DNSError "buffer underflow")
  | b :: _ => inr (response_of b)
  end.

(** [request.reply()] keeps the id and sets [qr], [aa] and [ra]. *)
Definition lib : Lib :=
  {| QTYPE := qtype_table;
     reply_header h := mkHeader (id h) true true true;
     DNSRecord_parse := parse |}.

Definition a_record (name data : string) : RR :=
  mkRR (chars name) 1 1 60 (chars data).

Definition a_query (name : string) : DNSRecord :=
  {| header := mkHeader 7 false false false; q := mkQ (chars name) 1 1; rr := [] |}.

Definition handler : DNSHandler := mkHandler ("192.168.4.20", 53124%N).

Definition resolver (zone overrides : list RR) : DNSResolver :=
  mkResolver zone overrides "9.9.9.9" "1.1.1.1" 0.

Definition world (zone overrides : list RR) (outs : list outcome) : World :=
  mkWorld (resolver zone overrides) (mkNet outs []).

Definition dns_section : gmap string string :=
  list_to_map
    [("zone_file", "/etc/dns/zones"); ("override_file", "/etc/dns/overrides");
     ("primary_upstream", "9.9.9.9"); ("backup_upstream", "1.1.1.1");
     ("laddr", "0.0.0.0"); ("lport", "53"); ("ttl", "60")].

Definition cfg : ConfigParser := {[ "DNS" := dns_section ]}.

(** Closes a closed goal by running the model. *)
Ltac by_running := vm_compute; reflexivity.

(** A host on which every call succeeds. *)
Definition host : Host :=
  {| int := fun _ => inr 53%Z;
     read_zone := fun _ => inr [a_record "intranet.local." "10.0.0.5"];
     listen := fun _ _ => None;
     start_thread := fun _ => None;
     stop_server := fun _ => None |}.

End Sample.

(** ** The control endpoint ([DNSServerService] in lib/api.py)

    The object published on the bus: a [DNSServer] whose four methods are
    wrapped for remote callers.  The root logger it writes to is kept as the
    list of the records written. *)
Module Api.
Import PyStr Py Dnslib Resolver Lifecycle.

Inductive level : Set := INFO | ERROR.

Record DNSServerService : Type := mkService {
  server : DNSServer;
  version : string;
  log : list (level * string);
}.

(** [DNSServerService.__init__(self)], given the configuration it read. *)
Definition DNSServerService_init (config : ConfigParser) : DNSServerService :=
  {| server := DNSServer_init config; version := "0.1"; log := [] |}.

(** A method inherited from [DNSServer], run on the service object. *)
Definition inherited {A} (m : M DNSServer A) : M DNSServerService A :=
  fun s =>
    match m (server s) with
    | (r, server') => (r, {| server := server'; version := version s; log := log s |})
    end.

(** [self.logger.info(msg)] and [self.logger.error(msg)] *)
Definition logger (l : level) (msg : string) : M DNSServerService unit :=
  modify (fun s => {| server := server s; version := version s;
                      log := log s ++ [(l, msg)] |}).

#[export] Instance exn_class_eq_dec : EqDecision exn_class.
Proof. solve_decision. Defined.

(** [try: m  except cls as e: h e]: an exception of another class goes on
    to the caller. *)
Definition try_except_class {S A} (cls : exn_class) (m : M S A) (h : exn -> M S A)
  : M S A :=
  try_except m (fun e => if bool_decide (exn_class_of e = cls) then h e else raise e).

(** [Start(self)] *)
Definition Start (host : Host) : M DNSServerService unit :=
  logger INFO "Got call on DBus API to Start";;
  try_except_class StateChangeError (inherited (start host))
    (fun err_msg => logger ERROR
       ("DBus API encoutered a StateChangeError handling call to Start! Error message:  "
        +:+ message err_msg));;
  mret tt.

(** [Stop(self)] *)
Definition Stop (host : Host) : M DNSServerService unit :=
  logger INFO "Got call on DBus API to Stop";;
  try_except_class StateChangeError (inherited (stop host))
    (fun err_msg => logger ERROR
       ("DBus API encoutered a StateChangeError handling call to Stop! Error message:  "
        +:+ message err_msg));;
  mret tt.

(** [Restart(self)] *)
Definition Restart (host : Host) : M DNSServerService unit :=
  logger INFO "Got call on DBus API to Restart";;
  try_except_class StateChangeError (inherited (restart host))
    (fun err_msg => logger ERROR
       ("DBus API encoutered a StateChangeError handling call to Restart! Error message:  "
        +:+ message err_msg));;
  mret tt.

(** [Configure(self, setting, value)] *)
Definition Configure (setting value : string) : M DNSServerService unit :=
  logger INFO ("Got call on DBus API to Configure with arguments: "
               +:+ setting +:+ ", " +:+ value);;
  try_except_class ConfigurationError (inherited (configure setting value))
    (fun err_msg => logger ERROR
       ("DBus API encountered a ConfigurationError handling call to Configure! Error message: "
        +:+ message err_msg));;
  mret tt.

(** The property [State]. *)
Definition State (s : DNSServerService) : string := state (server s).

End Api.

(** ** The command line client (dnsserverctl.py)

    The script runs in a process that prints lines, may end early
    ([sys.exit], or an exception nobody catches) and talks to the service
    through a proxy object. *)
Module Ctl.
Import Py.

(** How the process ends when it does not reach the end of the script. *)
Inductive halt : Type :=
  | SystemExit (code : Z)        (* [sys.exit(code)] *)
  | IndexError                   (* [l[i]] out of range *)
  | ValueError                   (* [l.index(x)], [x] not in [l] *)
  | Exception (msg : string)     (* [raise Exception(msg)] *)
  | Uncaught (e : exn).          (* raised while connecting to the bus *)

(** An entry of [operations]: [(name, arguments)]. *)
Definition operation : Type := string * list string.

(** The variables of the script, what it has printed, and the state of the
    service behind the proxy. *)
Record Process (S : Type) : Type := mkProcess {
  debug : bool;
  operations : list operation;
  stdout : list string;
  remote : S;
}.
Arguments mkProcess {S}.
Arguments debug {S}.
Arguments operations {S}.
Arguments stdout {S}.
Arguments remote {S}.

Definition P (S A : Type) : Type := Process S -> (halt + A) * Process S.

#[export] Instance P_ret {S} : MRet (P S) := fun A a p => (inr a, p).
#[export] Instance P_bind {S} : MBind (P S) :=
  fun A B k m p =>
    match m p with
    | (inr a, p') => k a p'
    | (inl h, p') => (inl h, p')
    end.

Definition halt_with {S A} (h : halt) : P S A := fun p => (inl h, p).

(** [print(line)] *)
Definition print {S} (line : string) : P S unit :=
  fun p => (inr tt, mkProcess (debug p) (operations p) (stdout p ++ [line]) (remote p)).

(** [sys.exit(code)] *)
Definition sys_exit {S A} (code : Z) : P S A := halt_with (SystemExit code).

(** [debug = True] *)
Definition set_debug {S} (v : bool) : P S unit :=
  fun p => (inr tt, mkProcess v (operations p) (stdout p) (remote p)).

(** [debug = False] and [operations = []] *)
Definition init_variables {S} : P S unit :=
  fun p => (inr tt, mkProcess false [] (stdout p) (remote p)).

(** [operations.append(op)] *)
Definition operations_append {S} (op : operation) : P S unit :=
  fun p => (inr tt, mkProcess (debug p) (operations p ++ [op]) (stdout p) (remote p)).

(** [for x in l: body x] *)
Fixpoint for_each {S A} (l : list A) (body : A -> P S unit) : P S unit :=
  match l with
  | [] => mret tt
  | x :: rest => body x;; for_each rest body
  end.

(** [l.index(x)]: the position of the first [x]. *)
Fixpoint index_of (l : list string) (x : string) : option nat :=
  match l with
  | [] => None
  | y :: rest => if bool_decide (y = x) then Some 0 else S <$> index_of rest x
  end.

Definition index {S} (l : list string) (x : string) : P S nat :=
  match index_of l x with
  | Some i => mret i
  | None => halt_with ValueError
  end.

(** [l[i]] for an index that is not negative. *)
Definition getitem {S} (l : list string) (i : nat) : P S string :=
  match l !! i with
  | Some x => mret x
  | None => halt_with IndexError
  end.

Definition tab : string := String "009"%char "".

Definition __project_repository__ : string :=
  "https://github.com/newdaynewburner/dns-server".
Definition __dnsserverd_version__ : string := "0.1".
Definition __dnsserverctl_version__ : string := "0.1".

(** The tuple of setting names the script accepts after [configure]. *)
Definition settings : list string :=
  ["zone_file"; "override_file"; "primary_upstream"; "backup_upstream";
   "laddr"; "lport"; "ttl"].

(** The body of the loop over [opts]. *)
Definition opt_step {S} (o : string * string) : P S unit :=
  let opt := fst o in
  if bool_decide (opt ∈ ["-h"; "--help"]) then
    print "USAGE:";;
    print (tab +:+ "dnsserverctl [ OPTIONS ] COMMAND { COMMAND_ARGS | help }");;
    print "WHERE:";;
    print (tab +:+ "OPTIONS := { -h, --help | -v, --version | -d, --debug }");;
    print (tab +:+ "COMMAND := { start | stop | restart | configure }");;
    sys_exit 0
  else if bool_decide (opt ∈ ["-v"; "--version"]) then
    print ("dnsserverctl (" +:+ __project_repository__ +:+ ")");;
    print ("dnsserverctl version: " +:+ __dnsserverctl_version__);;
    print ("dnsserverd version: " +:+ __dnsserverd_version__);;
    sys_exit 0
  else if bool_decide (opt ∈ ["-d"; "--debug"]) then set_debug true
  else mret tt.

(** The body of the loop over [args]. *)
Definition arg_step {S} (args : list string) (arg : string) : P S unit :=
  let len := Z.of_nat (length args) in
  if bool_decide (arg = "start") then
    i ← index args arg;
    (if bool_decide (Z.of_nat i + 1 < len)%Z then
       next ← getitem args (i + 1);
       if bool_decide (next = "help") then
         print "Start the DNS server";;
         print "USAGE:";;
         print (tab +:+ "dnsserverctl start");;
         sys_exit 0
       else mret tt
     else mret tt);;
    operations_append ("start", [])
  else if bool_decide (arg = "stop") then
    i ← index args arg;
    (if bool_decide (Z.of_nat i + 1 < len)%Z then
       next ← getitem args (i + 1);
       if bool_decide (next = "help") then
         print "Stop the DNS server";;
         print "USAGE:";;
         print (tab +:+ "dnsserverctl stop")
       else mret tt
     else mret tt);;
    operations_append ("stop", [])
  else if bool_decide (arg = "restart") then
    i ← index args arg;
    (if bool_decide (Z.of_nat i + 1 < len)%Z then
       next ← getitem args (i + 1);
       if bool_decide (next = "help") then
         print "Restart the DNS server";;
         print "USAGE:";;
         print (tab +:+ "dnsserverctl restart")
       else mret tt
     else mret tt);;
    operations_append ("restart", [])
  else if bool_decide (arg = "configure") then
    i ← index args arg;
    if bool_decide (Z.of_nat i + 2 <= len - 1)%Z || bool_decide (Z.of_nat i + 1 = len - 1)%Z
    then
      next ← getitem args (i + 1);
      if bool_decide (next = "help") then
        print "Change the value of a configuration setting";;
        print "USAGE:";;
        print (tab +:+ "dnsserverctl [ OPTIONS ] configure { SETTING | help } VALUE");;
        print "WHERE:";;
        print (tab +:+ "OPTIONS := { -h, --help | -v, --version | -d, --debug }");;
        print (tab +:+ "SETTING := { zone_file | override_file | primary_upstream | backup_upstream | laddr | lport | ttl }");;
        sys_exit 0
      else if bool_decide (next ∈ settings) then
        setting ← getitem args (i + 1);
        value ← getitem args (i + 2);
        operations_append ("configure", [setting; value])
      else
        print ("Invalid setting '" +:+ next
               +:+ "'! See 'dnsserverctl configure help' for a list of valid settings!");;
        sys_exit 1
    else
      print "Error! Invalid usage! See -h or --help for usage information!";;
      sys_exit 1
  else mret tt.

(** What the script takes from the interpreter and from pydbus: how a tuple
    and an exception print, whether the bus can be reached, and the four
    methods of the proxy, each running on the state [S] of the service and
    raising what the bus reports. *)
Class Bus (S : Type) : Type := {
  repr : operation -> string;
  str : exn -> string;
  connect : option exn;
  api_Start : M S unit;
  api_Stop : M S unit;
  api_Restart : M S unit;
  api_Configure : string -> string -> M S unit;
}.

Section WithBus.
Context {S : Type} `{Bus S}.

(** [try: call  except Exception as err_msg: print(...)] *)
Definition guarded (call : M S unit) : P S unit :=
  fun p =>
    match call (remote p) with
    | (inr _, s') => (inr tt, mkProcess (debug p) (operations p) (stdout p) s')
    | (inl err_msg, s') =>
        (inr tt, mkProcess (debug p) (operations p)
                   (stdout p ++ ["[ERROR] DBus error: " +:+ str err_msg]) s')
    end.

(** [DBusAPIClient.__init__(self, bus_name, object_path, debug)] *)
Definition DBusAPIClient (bus_name object_path : string) (debug : bool) : P S unit :=
  match connect with
  | Some e => halt_with (Uncaught e)
  | None =>
      if debug
      then print ("[DEBUG] Connected to system bus '" +:+ bus_name
                  +:+ "' at path '" +:+ object_path +:+ "'")
      else mret tt
  end.

(** [DBusAPIClient.start(self)] *)
Definition client_start (debug : bool) : P S unit :=
  (if debug then print "[DEBUG] Making API call to: Start (Arguments: )" else mret tt);;
  guarded api_Start.

(** [DBusAPIClient.stop(self)] *)
Definition client_stop (debug : bool) : P S unit :=
  (if debug then print "[DEBUG] Making API call to: Stop (Arguments: )" else mret tt);;
  guarded api_Stop.

(** [DBusAPIClient.restart(self)] *)
Definition client_restart (debug : bool) : P S unit :=
  (if debug then print "[DEBUG] Making API call to: Restart (Arguments: )" else mret tt);;
  guarded api_Restart.

(** [DBusAPIClient.configure(self, setting, value)] *)
Definition client_configure (debug : bool) (setting value : string) : P S unit :=
  (if debug
   then print ("[DEBUG] Making API call to: Configure (Arguments: "
               +:+ setting +:+ ", " +:+ value +:+ ")")
   else mret tt);;
  guarded (api_Configure setting value).

(** The body of the loop of [main]. *)
Definition main_step (debug : bool) (op : operation) : P S unit :=
  (if debug then print ("[DEBUG] Current operation: " +:+ repr op) else mret tt);;
  if bool_decide (fst op = "start") then client_start debug
  else if bool_decide (fst op = "stop") then client_stop debug
  else if bool_decide (fst op = "restart") then client_restart debug
  else if bool_decide (fst op = "configure") then
    setting ← getitem (snd op) 0;
    value ← getitem (snd op) 1;
    client_configure debug setting value
  else halt_with (Exception ("Function main() encountered an invalid operation name: "
                             +:+ fst op)).

(** [main(debug, operations)] *)
Definition main (debug : bool) (operations : list operation) : P S unit :=
  DBusAPIClient "com.dnsserver.DNSServer" "/com/dnsserver/DNSServer" debug;;
  for_each operations (main_step debug).

(** The script, from what [getopt.getopt] made of the command line: its
    error, or the options and the remaining arguments. *)
Definition script (parsed : string + list (string * string) * list string)
  : P S unit :=
  match parsed with
  | inl err_msg =>
      halt_with (Exception
        ("Encountered an exception while parsing command line arguments! Error message: "
         +:+ err_msg))
  | inr (opts, args) =>
      init_variables;;
      for_each opts opt_step;;
      for_each args (arg_step args);;
      p ← (fun p => (inr p, p));
      main (debug p) (operations p)
  end.

End WithBus.

(** A process that has not run yet. *)
Definition fresh {S} (s : S) : Process S := mkProcess false [] [] s.

End Ctl.

(** ** The client and the endpoint on one bus

    The proxy the client gets from the bus stands for the object the
    service published ([api.init_dbus_api]): a call on the proxy runs the
    method of that name on the object, and what the method raises is raised
    at the caller. *)
Module Service.
Import Py Lifecycle Api Ctl.

Definition published (host : Host) (repr : operation -> string) (str : exn -> string)
    (connect : option exn) : Bus DNSServerService :=
  {| Ctl.repr := repr;
     Ctl.str := str;
     Ctl.connect := connect;
     api_Start := Start host;
     api_Stop := Stop host;
     api_Restart := Restart host;
     api_Configure := Configure |}.

End Service.

(** ** The client on the sample service *)
Module SampleCtl.
Import Py Lifecycle Api Ctl Service.

(** The proxy of a service that runs on [host]; a tuple prints as its first
    component and an exception as its message. *)
Definition bus (host : Host) : Bus DNSServerService :=
  published host fst message None.

(** A host whose sockets cannot be bound. *)
Definition host_without_sockets : Host :=
  {| int := fun _ => inr 53%Z;
     read_zone := fun _ => inr [];
     listen := fun _ _ => Some (Exn OSError "[Errno 98] Address already in use");
     start_thread := fun _ => None;
     stop_server := fun _ => None |}.

End SampleCtl.

(** ** The vocabulary of the further properties *)
Module Observed.
Import PyStr Names Py Dnslib Resolver Lifecycle Spec.

(** A local tier answers: some override record matches, or some zone record
    matches exactly. *)
Definition answered_locally `{Lib} (qname : pystr) (qtype : string)
    (overrides zone : list RR) : bool :=
  existsb (override_match qname qtype) overrides
  || existsb (exact_match qname qtype) zone.

(** A transaction that brought bytes back which [parse] refused. *)
Definition garbled `{Lib} (o : outcome) : bool :=
  match o with
  | Receives bytes =>
      match DNSRecord_parse bytes with
      | inl _ => true
      | inr _ => false
      end
  | Raises _ | Silent => false
  end.

(** The garbled responses among the transactions the upstream tier makes:
    the first always, the second when the first failed. *)
Definition garbled_responses `{Lib} (n : Net) : nat :=
  (if garbled (outcome_at n 0) then 1 else 0)
  + (if failed (outcome_at n 0) && garbled (outcome_at n 1) then 1 else 0).

(** The datagrams the upstream tier sends: one to the primary, and one to
    the backup when the transaction with the primary failed. *)
Definition forwards `{Lib} (request : DNSRecord) (primary backup : string) (n : Net)
  : list Datagram :=
  forwarded request primary
  :: (if failed (outcome_at n 0) then [forwarded request backup] else []).

(** A transaction nobody answers. *)
Definition silent (o : outcome) : bool :=
  match o with
  | Silent => true
  | Raises _ | Receives _ => false
  end.

(** The upstream tier meets an upstream that never answers: the primary, or
    the backup after the primary failed. *)
Definition waits `{Lib} (n : Net) : bool :=
  silent (outcome_at n 0) || (failed (outcome_at n 0) && silent (outcome_at n 1)).

(** A call of [resolve] that does not return: no local tier answers and the
    upstream tier waits. *)
Definition hangs `{Lib} (request : DNSRecord) (w : World) : bool :=
  negb (answered_locally (query_name request) (QTYPE (qtype (q request)))
          (dns_override_records (self w)) (dns_zone_records (self w)))
  && waits (net w).

(** The dots of a string. *)
Definition dots (s : pystr) : nat := length (List.filter is_dot s).

(** The listener a start builds from the section [DNS] of the
    configuration, when every option is there and every read succeeds. *)
Definition listener_of (host : Host) (section : gmap string string)
  : option dnslib_DNSServer :=
  primary ← section !! "primary_upstream";
  backup ← section !! "backup_upstream";
  zone_file ← section !! "zone_file";
  zone ← match read_zone host zone_file with inr l => Some l | inl _ => None end;
  override_file ← section !! "override_file";
  overrides ← match read_zone host override_file with inr l => Some l | inl _ => None end;
  lport ← section !! "lport";
  port ← match int host lport with inr z => Some z | inl _ => None end;
  address ← section !! "laddr";
  Some (mkListener (mkResolver zone overrides primary backup 0) port address).

(** The six options a start reads. *)
Definition options_read : list string :=
  ["primary_upstream"; "backup_upstream"; "zone_file"; "override_file";
   "lport"; "laddr"].

(** The words the client takes as commands without arguments. *)
Definition plain_commands : list string := ["start"; "stop"; "restart"].

(** The process after more operations were put on the list, and after more
    lines were printed. *)
Definition queued {S} (ops : list Ctl.operation) (p : Ctl.Process S) : Ctl.Process S :=
  Ctl.mkProcess (Ctl.debug p) (Ctl.operations p ++ ops) (Ctl.stdout p) (Ctl.remote p).

Definition printed {S} (lines : list string) (p : Ctl.Process S) : Ctl.Process S :=
  Ctl.mkProcess (Ctl.debug p) (Ctl.operations p) (Ctl.stdout p ++ lines) (Ctl.remote p).

(** The entries the script puts on the list. *)
Definition plain_op (command : string) : Ctl.operation := (command, []).

Definition configure_op (setting value : string) : Ctl.operation :=
  ("configure", [setting; value]).

(** A word that is one of the three commands without arguments. *)
Definition is_plain_command (word : string) : bool :=
  bool_decide (word ∈ plain_commands).

(** An entry [main] knows how to run and the endpoint accepts: a plain
    command without arguments, or [configure] with a setting of the seven
    and a value. *)
Definition well_formed (op : Ctl.operation) : Prop :=
  (fst op ∈ plain_commands /\ snd op = [])
  \/ (fst op = "configure"
      /\ exists setting value, snd op = [setting; value] /\ setting ∈ Ctl.settings).

(** A part of the script that keeps the list of operations well formed
    and, if it ends the script, ends it by [sys.exit] with status 0 or 1 or
    by an index out of range. *)
Definition tame {S A} (m : Ctl.P S A) : Prop :=
  forall p,
    Forall well_formed (Ctl.operations p) ->
    Forall well_formed (Ctl.operations (snd (m p)))
    /\ forall h, fst (m p) = inl h ->
         h = Ctl.SystemExit 0 \/ h = Ctl.SystemExit 1 \/ h = Ctl.IndexError.

End Observed.

(** * Facts

    ** Python strings *)
Module PyStrFacts.
Import PyStr.

Example lower_mixed : lower (chars "Example.COM-1_x") = chars "example.com-1_x".
Proof. reflexivity. Qed.

Example rstrip_dot_trailing : rstrip_dot (chars "a.b...") = chars "a.b".
Proof. reflexivity. Qed.

Example rstrip_dot_inner : rstrip_dot (chars ".a..b") = chars ".a..b".
Proof. reflexivity. Qed.

Example rstrip_dot_only_dots : rstrip_dot (chars "...") = [].
Proof. reflexivity. Qed.

Example split_dot_name : split_dot (chars "foo.example.com")
                         = [chars "foo"; chars "example"; chars "com"].
Proof. reflexivity. Qed.

Example split_dot_empty : split_dot [] = [[]].
Proof. reflexivity. Qed.

Example split_dot_empty_piece : split_dot (chars "a..b") = [chars "a"; []; chars "b"].
Proof. reflexivity. Qed.

Example endswith_suffix :
  endswith (chars "foo.example.com.") (chars "example.com.") = true.
Proof. reflexivity. Qed.

Example endswith_longer : endswith (chars "com.") (chars "example.com.") = false.
Proof. reflexivity. Qed.

Example endswith_empty : endswith (chars "com.") [] = true.
Proof. reflexivity. Qed.

Lemma is_dot_true c : is_dot c = true <-> c = dot.
Proof. unfold is_dot. apply Ascii.eqb_eq. Qed.

Lemma is_dot_lower c : is_dot (lower_char c) = is_dot c.
Proof.
  destruct c as [[] [] [] [] [] [] [] []]; reflexivity.
Qed.

Lemma lower_char_idem c : lower_char (lower_char c) = lower_char c.
Proof.
  destruct c as [[] [] [] [] [] [] [] []]; reflexivity.
Qed.

Lemma lower_idem s : lower (lower s) = lower s.
Proof.
  unfold lower. rewrite map_map. apply map_ext. intros c. apply lower_char_idem.
Qed.

Lemma lower_app s t : lower (s ++ t) = lower s ++ lower t.
Proof. apply map_app. Qed.

Lemma rstrip_dot_nil_iff s : rstrip_dot s = [] <-> Forall (fun c => c = dot) s.
Proof.
  induction s as [|c t IH]; simpl.
  - split; auto.
  - rewrite Forall_cons, <- IH, <- is_dot_true.
    destruct (rstrip_dot t) as [|x r]; destruct (is_dot c); intuition congruence.
Qed.

Lemma rstrip_dot_cons c t :
  rstrip_dot t <> [] -> rstrip_dot (c :: t) = c :: rstrip_dot t.
Proof. simpl. destruct (rstrip_dot t); congruence. Qed.

Lemma rstrip_dot_app_dot s : rstrip_dot (s ++ [dot]) = rstrip_dot s.
Proof.
  induction s as [|c t IH]; simpl.
  - reflexivity.
  - rewrite IH. reflexivity.
Qed.

Lemma rstrip_dot_app_dots s k : rstrip_dot (s ++ repeat dot k) = rstrip_dot s.
Proof.
  revert s. induction k as [|k IH]; intros s; simpl.
  - now rewrite app_nil_r.
  - replace (s ++ dot :: repeat dot k) with ((s ++ [dot]) ++ repeat dot k)
      by now rewrite <- app_assoc.
    rewrite IH. apply rstrip_dot_app_dot.
Qed.

Lemma rstrip_dot_idem s : rstrip_dot (rstrip_dot s) = rstrip_dot s.
Proof.
  induction s as [|c t IH]; simpl; [reflexivity|].
  destruct (rstrip_dot t) as [|x r] eqn:E.
  - destruct (is_dot c) eqn:D; simpl; [reflexivity|]. now rewrite D.
  - simpl in *. rewrite IH. reflexivity.
Qed.

Lemma rstrip_dot_lower s : rstrip_dot (lower s) = lower (rstrip_dot s).
Proof.
  induction s as [|c t IH]; simpl; [reflexivity|].
  fold (lower t). rewrite IH.
  destruct (rstrip_dot t) as [|x r]; simpl.
  - rewrite is_dot_lower. destruct (is_dot c); reflexivity.
  - reflexivity.
Qed.

Lemma startswith_iff s p : startswith s p = true <-> exists t, s = p ++ t.
Proof.
  revert s. induction p as [|a p IH]; intros s; simpl.
  - split; [intros _; exists s; reflexivity | reflexivity].
  - destruct s as [|b s].
    + split; [discriminate|]. intros [t Ht]. discriminate.
    + rewrite andb_true_iff, Ascii.eqb_eq, IH. split.
      * intros [-> [t ->]]. exists t. reflexivity.
      * intros [t Ht]. injection Ht as -> ->. split; [reflexivity | exists t; reflexivity].
Qed.

Lemma endswith_iff s p : endswith s p = true <-> exists t, s = t ++ p.
Proof.
  unfold endswith. rewrite startswith_iff. split.
  - intros [t Ht]. exists (rev t).
    rewrite <- (rev_involutive s), Ht, rev_app_distr, rev_involutive. reflexivity.
  - intros [t ->]. exists (rev t). apply rev_app_distr.
Qed.

Lemma split_dot_not_nil s : split_dot s <> [].
Proof.
  destruct s as [|c t]; simpl; [discriminate|].
  destruct (is_dot c); [discriminate|]. destruct (split_dot t); discriminate.
Qed.

Lemma length_split_dot s : length (split_dot s) = S (length (List.filter is_dot s)).
Proof.
  induction s as [|c t IH]; simpl; [reflexivity|].
  destruct (is_dot c); simpl.
  - now rewrite IH.
  - destruct (split_dot t) eqn:E; simpl in *; [discriminate|]. exact IH.
Qed.

End PyStrFacts.

Module NamesFacts.
Import PyStr Names Spec PyStrFacts.

Example normalize_mixed_case : normalize (chars "Example.COM") = chars "example.com.".
Proof. reflexivity. Qed.

Example normalize_trailing_dots : normalize (chars "example.com...") = chars "example.com.".
Proof. reflexivity. Qed.

Example normalize_root : normalize [] = chars ".".
Proof. reflexivity. Qed.

Example wildcard_one_label :
  wildcard_match (chars "foo.example.com.") (chars "*.example.com.") = true.
Proof. reflexivity. Qed.

Example wildcard_no_label :
  wildcard_match (chars "example.com.") (chars "*.example.com.") = false.
Proof. reflexivity. Qed.

Example wildcard_two_labels :
  wildcard_match (chars "foo.bar.example.com.") (chars "*.example.com.") = false.
Proof. reflexivity. Qed.

(** The suffix is compared as a string, not label by label. *)
Example wildcard_suffix_inside_a_label :
  wildcard_match (chars "a.xexample.com.") (chars "*.example.com.") = true.
Proof. reflexivity. Qed.

Example wildcard_not_a_wildcard :
  wildcard_match (chars "foo.example.com.") (chars "foo.example.com.") = false.
Proof. reflexivity. Qed.

Lemma lower_dots k : lower (repeat dot k) = repeat dot k.
Proof. induction k as [|k IH]; simpl; [reflexivity | now rewrite IH]. Qed.

Lemma normalize_idem n : normalize (normalize n) = normalize n.
Proof.
  unfold normalize. f_equal.
  rewrite lower_app. change (lower [dot]) with [dot].
  rewrite rstrip_dot_app_dot, rstrip_dot_lower, rstrip_dot_idem, <- rstrip_dot_lower.
  now rewrite lower_idem.
Qed.

Lemma normalize_rstrip n : normalize (rstrip_dot n) = normalize n.
Proof.
  unfold normalize. now rewrite <- rstrip_dot_lower, rstrip_dot_idem.
Qed.

Lemma normalize_app_dots n k : normalize (n ++ repeat dot k) = normalize n.
Proof.
  unfold normalize. now rewrite lower_app, lower_dots, rstrip_dot_app_dots.
Qed.

Lemma lower_char_upper x y :
  is_upper x -> N_of_ascii y = (N_of_ascii x + 32)%N ->
  lower_char x = y /\ lower_char y = y.
Proof.
  unfold is_upper, lower_char. intros Hx Hy. rewrite Hy.
  replace ((65 <=? N_of_ascii x) && (N_of_ascii x <=? 90))%N with true
    by (symmetry; apply andb_true_iff; split; apply N.leb_le; lia).
  replace ((65 <=? N_of_ascii x + 32) && (N_of_ascii x + 32 <=? 90))%N with false
    by (symmetry; apply andb_false_iff; right; apply N.leb_gt; lia).
  split; [|reflexivity].
  rewrite <- Hy. apply ascii_N_embedding.
Qed.

Lemma case_variant_lower x y : case_variant x y -> lower_char x = lower_char y.
Proof.
  intros [-> | [[Hx Hy] | [Hy Hx]]]; [reflexivity | |].
  - destruct (lower_char_upper x y Hx Hy) as [-> ->]. reflexivity.
  - destruct (lower_char_upper y x Hy Hx) as [-> ->]. reflexivity.
Qed.

Lemma case_variants_lower a b : Forall2 case_variant a b -> lower a = lower b.
Proof.
  induction 1 as [|x y a b Hxy _ IH]; simpl; [reflexivity|].
  f_equal; [now apply case_variant_lower | exact IH].
Qed.

Lemma same_spelling_normalize a b : same_spelling a b -> normalize a = normalize b.
Proof.
  intros (a0 & b0 & j & k & -> & -> & Hab).
  rewrite !normalize_app_dots. unfold normalize.
  now rewrite (case_variants_lower _ _ Hab).
Qed.

Lemma rstrip_dot_normalize n : rstrip_dot (normalize n) = rstrip_dot (lower n).
Proof. unfold normalize. now rewrite rstrip_dot_app_dot, rstrip_dot_idem. Qed.

(** The normal form of a wildcard owner whose suffix is not the root. *)
Lemma normalize_wildcard s :
  rstrip_dot (lower s) <> [] ->
  normalize (chars "*." ++ s) = chars "*." ++ normalize s.
Proof.
  intros Hs. unfold normalize.
  change (lower (chars "*." ++ s)) with ("*"%char :: dot :: lower s).
  rewrite (rstrip_dot_cons "*"), (rstrip_dot_cons dot); try assumption.
  - reflexivity.
  - rewrite rstrip_dot_cons by assumption. discriminate.
Qed.

(** The normal form of a wildcard owner whose suffix is the root. *)
Lemma normalize_wildcard_root s :
  rstrip_dot (lower s) = [] -> normalize (chars "*." ++ s) = chars "*.".
Proof.
  intros Hs. unfold normalize.
  change (lower (chars "*." ++ s)) with ("*"%char :: dot :: lower s).
  simpl. rewrite Hs. reflexivity.
Qed.

Lemma wildcard_match_unfold qn ns :
  wildcard_match qn (chars "*." ++ ns) = true <->
  endswith qn ns = true /\
  length (split_dot (rstrip_dot qn)) = length (split_dot (rstrip_dot ns)) + 1.
Proof.
  unfold wildcard_match.
  change (startswith (chars "*." ++ ns) (chars "*.")) with true.
  change (slice_from 2 (chars "*." ++ ns)) with ns. simpl negb.
  destruct (endswith qn ns); simpl.
  - destruct (Nat.eqb_spec (length (split_dot (rstrip_dot qn)))
                (length (split_dot (rstrip_dot ns)) + 1)); intuition congruence.
  - intuition congruence.
Qed.

(** A wildcard owner [*.<suffix>] with a suffix other than the root matches
    the names that end with the suffix and have one label more. *)
Lemma wildcard_match_one_label q s :
  rstrip_dot (lower s) <> [] ->
  wildcard_match (normalize q) (normalize (chars "*." ++ s)) = true <->
  endswith (normalize q) (normalize s) = true /\
  length (labels (normalize q)) = length (labels (normalize s)) + 1.
Proof.
  intros Hs. rewrite (normalize_wildcard s Hs), wildcard_match_unfold.
  unfold labels. rewrite !rstrip_dot_normalize.
  pose proof (length_split_dot (rstrip_dot (lower s))) as Ls.
  pose proof (length_split_dot (rstrip_dot (lower q))) as Lq.
  destruct (rstrip_dot (lower s)) as [|x xs] eqn:Es; [congruence|].
  destruct (rstrip_dot (lower q)) as [|y ys] eqn:Eq.
  - simpl in *. split; intros [? ?]; lia.
  - reflexivity.
Qed.

(** A wildcard owner whose suffix is the root: its suffix string is empty,
    which [split] cuts into one piece, so it matches the names of two
    pieces. *)
Lemma wildcard_match_root_suffix q s :
  rstrip_dot (lower s) = [] ->
  wildcard_match (normalize q) (normalize (chars "*." ++ s)) = true <->
  length (split_dot (rstrip_dot (lower q))) = 2.
Proof.
  intros Hs. rewrite (normalize_wildcard_root s Hs).
  change (chars "*.") with (chars "*." ++ []).
  rewrite wildcard_match_unfold, rstrip_dot_normalize.
  unfold endswith. cbn [rev startswith rstrip_dot split_dot length Nat.add].
  tauto.
Qed.

End NamesFacts.

(** ** The resolver *)
Module ResolverFacts.
Import PyStr Names Py Dnslib Resolver Spec PyStrFacts NamesFacts.

Section WithLib.
Context `{Lib}.

Lemma fold_add_answer (l : list RR) (reply : DNSRecord) :
  fold_left add_answer l reply =
  {| header := header reply; q := q reply; rr := rr reply ++ l |}.
Proof.
  revert reply. induction l as [|r l IH]; intros reply; simpl.
  - rewrite app_nil_r. now destruct reply.
  - rewrite IH. simpl. now rewrite <- app_assoc.
Qed.

Lemma scan_override_fold qn qt (l : list RR) (acc : list RR * list RR) :
  fold_left (scan_override qn qt) l acc =
  (fst acc ++ List.filter (exact_match qn qt) l,
   snd acc ++ List.filter (wildcard_only_match qn qt) l).
Proof.
  revert acc. induction l as [|r l IH]; intros [e w]; simpl.
  - now rewrite !app_nil_r.
  - rewrite IH. unfold scan_override, exact_match, wildcard_only_match. simpl.
    destruct (type_match qt r); simpl; [|reflexivity].
    destruct (bool_decide (qn = normalize (rname r))); simpl.
    + now rewrite <- app_assoc.
    + destruct (wildcard_match qn (normalize (rname r))); simpl;
        [now rewrite <- app_assoc | reflexivity].
Qed.

Ltac run_resolver := unfold incr_query; run_mb.

Lemma override_tier_winners overrides qn qt reply :
  override_tier overrides qn qt reply =
  match winners qn qt overrides with
  | [] => None
  | m => Some {| header := header reply; q := q reply; rr := rr reply ++ m |}
  end.
Proof.
  unfold override_tier, winners. destruct overrides as [|r l]; [reflexivity|].
  rewrite scan_override_fold. cbn [fst snd app].
  destruct (or_list _ _) as [|m ms] eqn:E; [reflexivity|].
  now rewrite fold_add_answer.
Qed.

Lemma zone_tier_none zone qn qt reply :
  Forall (fun r => exact_match qn qt r = false) zone ->
  zone_tier zone qn qt reply = None.
Proof.
  induction 1 as [|r l Hr _ IH]; simpl; [reflexivity|].
  unfold exact_match in Hr. now rewrite Hr.
Qed.

Lemma zone_tier_first before r after qn qt reply :
  Forall (fun r' => exact_match qn qt r' = false) before ->
  exact_match qn qt r = true ->
  zone_tier (before ++ r :: after) qn qt reply = Some (set_aa (add_answer reply r)).
Proof.
  intros Hb Hr. induction Hb as [|r' l Hr' _ IH]; simpl.
  - unfold exact_match in Hr. now rewrite Hr.
  - unfold exact_match in Hr'. now rewrite Hr'.
Qed.


Lemma filter_none {A} (p : A -> bool) (l : list A) :
  Forall (fun x => p x = false) l -> List.filter p l = [].
Proof.
  induction 1 as [|x l Hx _ IH]; simpl; [reflexivity|]. now rewrite Hx.
Qed.

Lemma winners_none qn qt overrides :
  Forall (fun o => override_match qn qt o = false) overrides ->
  winners qn qt overrides = [].
Proof.
  intros Ho. unfold winners.
  rewrite !filter_none; [reflexivity | |];
    apply (Forall_impl _ _ _ Ho); intros o Hm; unfold override_match in Hm;
    apply orb_false_iff in Hm; tauto.
Qed.

Lemma resolve_override request handler zone overrides primary backup n nt m ms :
  winners (query_name request) (QTYPE (qtype (q request))) overrides = m :: ms ->
  resolve request handler (mkWorld (mkResolver zone overrides primary backup n) nt) =
  (inr (Some {| header := reply_header (header request); q := q request;
                rr := m :: ms |}),
   mkWorld (mkResolver zone overrides primary backup (n + 1)) nt).
Proof.
  intros Hw. unfold resolve. run_resolver. cbn [self dns_override_records].
  fold (query_name request).
  rewrite override_tier_winners, Hw. reflexivity.
Qed.


Lemma resolve_zone request handler zone overrides primary backup n nt reply :
  winners (query_name request) (QTYPE (qtype (q request))) overrides = [] ->
  zone_tier zone (query_name request) (QTYPE (qtype (q request)))
    (DNSRecord_reply request) = Some reply ->
  resolve request handler (mkWorld (mkResolver zone overrides primary backup n) nt) =
  (inr (Some reply), mkWorld (mkResolver zone overrides primary backup (n + 1)) nt).
Proof.
  intros Hw Hz. unfold resolve. run_resolver.
  cbn [self dns_override_records dns_zone_records].
  fold (query_name request).
  rewrite override_tier_winners, Hw, Hz. reflexivity.
Qed.

Lemma resolve_upstream request handler zone overrides primary backup n nt :
  winners (query_name request) (QTYPE (qtype (q request))) overrides = [] ->
  zone_tier zone (query_name request) (QTYPE (qtype (q request)))
    (DNSRecord_reply request) = None ->
  resolve request handler (mkWorld (mkResolver zone overrides primary backup n) nt) =
  upstream_tier [primary; backup] request
    (mkWorld (mkResolver zone overrides primary backup n) nt).
Proof.
  intros Hw Hz. unfold resolve. run_resolver.
  cbn [self dns_override_records dns_zone_records].
  fold (query_name request).
  rewrite override_tier_winners, Hw, Hz. reflexivity.
Qed.

(** One turn of the loop over the upstreams. *)
Lemma upstream_tier_step upstream rest request slf outs log :
  upstream_tier (upstream :: rest) request (mkWorld slf (mkNet outs log)) =
  let nt' := mkNet (tl outs) (log ++ [forwarded request upstream]) in
  match nth 0 outs Silent with
  | Silent => (inl Blocked, mkWorld slf nt')
  | Raises _ => upstream_tier rest request (mkWorld slf nt')
  | Receives bytes =>
      match DNSRecord_parse bytes with
      | inr response => (inr (Some response), mkWorld (bumped 1 slf) nt')
      | inl _ => upstream_tier rest request (mkWorld (bumped 1 slf) nt')
      end
  end.
Proof.
  cbn [upstream_tier]. unfold send, forwarded, bumped. run_resolver.
  cbn [net outcomes sent self].
  destruct outs as [|[e|b|] outs]; cbn [nth tl]; try reflexivity.
  destruct (DNSRecord_parse b); reflexivity.
Qed.

Lemma upstream_tier_end request (w : World) :
  upstream_tier [] request w = (inr None, mkWorld (bumped 1 (self w)) (net w)).
Proof. reflexivity. Qed.

(** A turn that yields a response, a turn that fails, a turn that waits. *)
Lemma upstream_tier_answered upstream rest request slf outs log response :
  attempt (nth 0 outs Silent) = Some response ->
  upstream_tier (upstream :: rest) request (mkWorld slf (mkNet outs log)) =
  (inr (Some response),
   mkWorld (bumped 1 slf) (mkNet (tl outs) (log ++ [forwarded request upstream]))).
Proof.
  intros Ha. rewrite upstream_tier_step. cbv zeta. unfold attempt in Ha.
  destruct (nth 0 outs Silent) as [e|b|]; try discriminate.
  destruct (DNSRecord_parse b); [discriminate|]. now injection Ha as ->.
Qed.

Lemma upstream_tier_failed upstream rest request slf outs log :
  failed (nth 0 outs Silent) = true ->
  exists k,
    upstream_tier (upstream :: rest) request (mkWorld slf (mkNet outs log)) =
    upstream_tier rest request
      (mkWorld (bumped k slf) (mkNet (tl outs) (log ++ [forwarded request upstream]))).
Proof.
  intros Hf. rewrite upstream_tier_step. cbv zeta. unfold failed in Hf.
  destruct (nth 0 outs Silent) as [e|b|]; try discriminate.
  - exists 0. destruct slf as [z o p b n]. unfold bumped. cbn.
    now rewrite Nat.add_0_r.
  - destruct (DNSRecord_parse b); [|discriminate]. now exists 1.
Qed.

Lemma upstream_tier_silent upstream rest request slf outs log :
  nth 0 outs Silent = Silent ->
  upstream_tier (upstream :: rest) request (mkWorld slf (mkNet outs log)) =
  (inl Blocked, mkWorld slf (mkNet (tl outs) (log ++ [forwarded request upstream]))).
Proof. intros Hs. rewrite upstream_tier_step. cbv zeta. now rewrite Hs. Qed.

(** The five ways the upstream tier goes. *)
Lemma upstream_tier_outcomes request (w : World) primary backup :
  (forall response,
      attempt (outcome_at (net w) 0) = Some response ->
      fst (upstream_tier [primary; backup] request w) = inr (Some response)
      /\ sent (net (snd (upstream_tier [primary; backup] request w))) =
         sent (net w) ++ [forwarded request primary])
  /\ (forall response,
      failed (outcome_at (net w) 0) = true ->
      attempt (outcome_at (net w) 1) = Some response ->
      fst (upstream_tier [primary; backup] request w) = inr (Some response)
      /\ sent (net (snd (upstream_tier [primary; backup] request w))) =
         sent (net w) ++ [forwarded request primary; forwarded request backup])
  /\ (failed (outcome_at (net w) 0) = true ->
      failed (outcome_at (net w) 1) = true ->
      fst (upstream_tier [primary; backup] request w) = inr None
      /\ sent (net (snd (upstream_tier [primary; backup] request w))) =
         sent (net w) ++ [forwarded request primary; forwarded request backup])
  /\ (outcome_at (net w) 0 = Silent ->
      fst (upstream_tier [primary; backup] request w) = inl Blocked
      /\ sent (net (snd (upstream_tier [primary; backup] request w))) =
         sent (net w) ++ [forwarded request primary])
  /\ (failed (outcome_at (net w) 0) = true ->
      outcome_at (net w) 1 = Silent ->
      fst (upstream_tier [primary; backup] request w) = inl Blocked
      /\ sent (net (snd (upstream_tier [primary; backup] request w))) =
         sent (net w) ++ [forwarded request primary; forwarded request backup]).
Proof.
  destruct w as [slf [outs log]]. unfold outcome_at. cbn [net outcomes sent].
  assert (Hnth : nth 1 outs Silent = nth 0 (tl outs) Silent)
    by (destruct outs as [|? [|? ?]]; reflexivity).
  rewrite Hnth.
  split; [|split; [|split; [|split]]].
  - intros response Ha. rewrite (upstream_tier_answered _ _ _ _ _ _ _ Ha).
    split; reflexivity.
  - intros response Hf Ha.
    destruct (upstream_tier_failed primary [backup] request slf outs log Hf) as [k ->].
    rewrite (upstream_tier_answered _ _ _ _ _ _ _ Ha).
    cbn [fst snd net sent]. rewrite <- app_assoc. split; reflexivity.
  - intros Hf1 Hf2.
    destruct (upstream_tier_failed primary [backup] request slf outs log Hf1) as [k ->].
    destruct (upstream_tier_failed backup [] request (bumped k slf) (tl outs)
                (log ++ [forwarded request primary]) Hf2) as [k2 ->].
    rewrite upstream_tier_end. cbn [fst snd net sent].
    rewrite <- app_assoc. split; reflexivity.
  - intros Hs. rewrite (upstream_tier_silent _ _ _ _ _ _ Hs). split; reflexivity.
  - intros Hf Hs.
    destruct (upstream_tier_failed primary [backup] request slf outs log Hf) as [k ->].
    rewrite (upstream_tier_silent _ _ _ _ _ _ Hs).
    cbn [fst snd net sent]. rewrite <- app_assoc. split; reflexivity.
Qed.

Lemma filter_sublist {A} (p : A -> bool) (l : list A) :
  sublist (List.filter p l) l.
Proof.
  induction l as [|x l IH]; simpl; [constructor|].
  destruct (p x); now constructor.
Qed.

Lemma winners_sublist qn qt overrides : sublist (winners qn qt overrides) overrides.
Proof.
  unfold winners, or_list.
  destruct (List.filter (exact_match qn qt) overrides) eqn:E.
  - apply filter_sublist.
  - rewrite <- E. apply filter_sublist.
Qed.

Lemma exact_not_wildcard_only qn qt r :
  exact_match qn qt r = true -> wildcard_only_match qn qt r = false.
Proof.
  unfold exact_match, wildcard_only_match. intros He.
  apply andb_true_iff in He as [-> ->]. reflexivity.
Qed.

(** C1: when some override record is a type match whose normalised owning
    name equals the normalised query name, [resolve] returns a reply whose
    answers are all the exact matches of the override set, in its order, and
    none of the records that match only as a wildcard; the reply is the same
    whatever the zone records, the upstream addresses and the network are,
    and the network is left as it was: nothing is sent, no tier after the
    override tier runs. *)
Theorem override_exact_match_wins request handler overrides n :
  (exists r, In r overrides
             /\ exact_match (query_name request) (QTYPE (qtype (q request))) r = true) ->
  exists reply,
    rr reply =
      List.filter (exact_match (query_name request) (QTYPE (qtype (q request))))
        overrides
    /\ (forall r, In r overrides ->
          exact_match (query_name request) (QTYPE (qtype (q request))) r = true ->
          In r (rr reply))
    /\ (forall r, In r (rr reply) ->
          exact_match (query_name request) (QTYPE (qtype (q request))) r = true
          /\ wildcard_only_match (query_name request) (QTYPE (qtype (q request))) r
             = false)
    /\ (forall zone primary backup nt,
          resolve request handler
            (mkWorld (mkResolver zone overrides primary backup n) nt)
          = (inr (Some reply),
             mkWorld (mkResolver zone overrides primary backup (n + 1)) nt)).
Proof.
  intros (r0 & Hin & Hex).
  set (qn := query_name request) in *. set (qt := QTYPE (qtype (q request))) in *.
  assert (Hne : In r0 (List.filter (exact_match qn qt) overrides))
    by (apply filter_In; auto).
  destruct (List.filter (exact_match qn qt) overrides) as [|m ms] eqn:E;
    [contradiction|].
  exists {| header := reply_header (header request); q := q request; rr := m :: ms |}.
  cbn [rr]. rewrite <- E. split; [reflexivity|]. split; [|split].
  - intros r Hr Hm. apply filter_In; auto.
  - intros r Hr. apply filter_In in Hr as [_ Hm].
    split; [exact Hm | now apply exact_not_wildcard_only].
  - intros zone primary backup nt. rewrite E. apply resolve_override.
    unfold winners. fold qn qt. now rewrite E.
Qed.

(** C3: when no override record matches and the zone set holds a type match
    whose normalised owning name equals the normalised query name, [resolve]
    returns a reply with exactly one answer, the first such record of the
    zone set, and with the authoritative-answer flag set, whatever follows
    that record in the zone set; nothing is sent upstream. *)
Theorem zone_first_match_authoritative
    request handler overrides before r after primary backup n nt :
  Forall (fun o => override_match (query_name request)
                     (QTYPE (qtype (q request))) o = false) overrides ->
  Forall (fun z => exact_match (query_name request)
                     (QTYPE (qtype (q request))) z = false) before ->
  exact_match (query_name request) (QTYPE (qtype (q request))) r = true ->
  exists reply,
    resolve request handler
      (mkWorld (mkResolver (before ++ r :: after) overrides primary backup n) nt)
    = (inr (Some reply),
       mkWorld (mkResolver (before ++ r :: after) overrides primary backup (n + 1)) nt)
    /\ rr reply = [r]
    /\ aa (header reply) = true.
Proof.
  intros Ho Hb Hr. eexists. split; [|split].
  - apply resolve_zone; [now apply winners_none|].
    now apply zone_tier_first.
  - reflexivity.
  - reflexivity.
Qed.

(** C4, as amended: when the override set holds records the override tier
    answers with (exact matches, or wildcard matches when there is no exact
    match), [resolve] returns them all in one reply, in the order of the
    override set: every exact match when there is one, every wildcard match
    otherwise. *)
Theorem override_answers_in_order request handler zone overrides primary backup n nt :
  winners (query_name request) (QTYPE (qtype (q request))) overrides <> [] ->
  exists reply,
    resolve request handler
      (mkWorld (mkResolver zone overrides primary backup n) nt)
    = (inr (Some reply),
       mkWorld (mkResolver zone overrides primary backup (n + 1)) nt)
    /\ rr reply = winners (query_name request) (QTYPE (qtype (q request))) overrides
    /\ sublist (rr reply) overrides
    /\ (forall o, In o overrides ->
          exact_match (query_name request) (QTYPE (qtype (q request))) o = true ->
          In o (rr reply))
    /\ (Forall (fun o => exact_match (query_name request)
                           (QTYPE (qtype (q request))) o = false) overrides ->
        forall o, In o overrides ->
          wildcard_only_match (query_name request) (QTYPE (qtype (q request))) o = true ->
          In o (rr reply)).
Proof.
  set (qn := query_name request). set (qt := QTYPE (qtype (q request))).
  intros Hne. destruct (winners qn qt overrides) as [|m ms] eqn:E; [congruence|].
  exists {| header := reply_header (header request); q := q request; rr := m :: ms |}.
  cbn [rr]. rewrite <- E. split; [|split; [|split; [|split]]].
  - rewrite E. now apply resolve_override.
  - reflexivity.
  - apply winners_sublist.
  - intros o Hin Hex. unfold winners, or_list.
    assert (Hf : In o (List.filter (exact_match qn qt) overrides))
      by (apply filter_In; auto).
    destruct (List.filter (exact_match qn qt) overrides); [contradiction | exact Hf].
  - intros Hnone o Hin Hw. unfold winners.
    rewrite (filter_none _ _ Hnone). cbn [or_list]. apply filter_In; auto.
Qed.

(** C5, as amended: when neither the override set nor the zone set
    matches, [resolve] sends the request as it received it to the primary
    upstream, port 53, over UDP; if that transaction yields a response this
    is the result and nothing else is sent; if it fails where the resolver
    sees it ([send] raises, or [parse] refuses the bytes that arrived), the
    same request goes to the backup upstream, once, and its parsed response
    is the result; if that fails too, [resolve] returns [None] and raises
    nothing.  An upstream that never answers is no such failure: [send] has
    no timeout, so [resolve] waits for it, sends nothing more and does not
    return. *)
Theorem upstream_fallback request handler zone overrides primary backup n nt :
  Forall (fun o => override_match (query_name request)
                     (QTYPE (qtype (q request))) o = false) overrides ->
  Forall (fun z => exact_match (query_name request)
                     (QTYPE (qtype (q request))) z = false) zone ->
  (forall response,
      attempt (outcome_at nt 0) = Some response ->
      fst (resolve request handler
             (mkWorld (mkResolver zone overrides primary backup n) nt))
        = inr (Some response)
      /\ sent (net (snd (resolve request handler
                           (mkWorld (mkResolver zone overrides primary backup n) nt))))
         = sent nt ++ [forwarded request primary])
  /\ (forall response,
      failed (outcome_at nt 0) = true ->
      attempt (outcome_at nt 1) = Some response ->
      fst (resolve request handler
             (mkWorld (mkResolver zone overrides primary backup n) nt))
        = inr (Some response)
      /\ sent (net (snd (resolve request handler
                           (mkWorld (mkResolver zone overrides primary backup n) nt))))
         = sent nt ++ [forwarded request primary; forwarded request backup])
  /\ (failed (outcome_at nt 0) = true ->
      failed (outcome_at nt 1) = true ->
      fst (resolve request handler
             (mkWorld (mkResolver zone overrides primary backup n) nt))
        = inr None
      /\ sent (net (snd (resolve request handler
                           (mkWorld (mkResolver zone overrides primary backup n) nt))))
         = sent nt ++ [forwarded request primary; forwarded request backup])
  /\ (outcome_at nt 0 = Silent ->
      fst (resolve request handler
             (mkWorld (mkResolver zone overrides primary backup n) nt))
        = inl Blocked
      /\ sent (net (snd (resolve request handler
                           (mkWorld (mkResolver zone overrides primary backup n) nt))))
         = sent nt ++ [forwarded request primary])
  /\ (failed (outcome_at nt 0) = true ->
      outcome_at nt 1 = Silent ->
      fst (resolve request handler
             (mkWorld (mkResolver zone overrides primary backup n) nt))
        = inl Blocked
      /\ sent (net (snd (resolve request handler
                           (mkWorld (mkResolver zone overrides primary backup n) nt))))
         = sent nt ++ [forwarded request primary; forwarded request backup]).
Proof.
  intros Ho Hz.
  rewrite resolve_upstream by auto using winners_none, zone_tier_none.
  apply (upstream_tier_outcomes request
           (mkWorld (mkResolver zone overrides primary backup n) nt)).
Qed.

(** C8: a query of type "ANY" is a type match for every stored record,
    whatever its type; a stored record of type "ANY" is no type match for a
    query of another type; and a record that is no type match is skipped by
    the override scan and by the zone scan. *)
Theorem type_match_any_query_side :
  (forall r, type_match "ANY" r = true)
  /\ (forall qt r, QTYPE (rtype r) = "ANY" -> qt <> "ANY" -> type_match qt r = false)
  /\ (forall qn qt acc r, type_match qt r = false -> scan_override qn qt acc r = acc)
  /\ (forall qn qt r zone reply,
        type_match qt r = false ->
        zone_tier (r :: zone) qn qt reply = zone_tier zone qn qt reply).
Proof.
  unfold type_match. repeat split.
  - intros r. rewrite (bool_decide_eq_true_2 ("ANY" = "ANY")) by reflexivity.
    apply orb_true_r.
  - intros qt r Hr Hq. rewrite Hr.
    rewrite (bool_decide_eq_false_2 (qt = "ANY")) by assumption. reflexivity.
  - intros qn qt acc r Hm. unfold scan_override, type_match. now rewrite Hm.
  - intros qn qt r zone reply Hm. cbn [zone_tier]. unfold type_match. now rewrite Hm.
Qed.

(** C9: normalising a normalised name changes nothing; two spellings that
    differ only in letter case and in trailing dots have the same normal
    form; so two queries spelt in two such ways match the same records, and
    two records whose owning names are spelt in two such ways match the same
    queries. *)
Theorem normalize_canonical :
  (forall name, normalize (normalize name) = normalize name)
  /\ (forall a b, same_spelling a b -> normalize a = normalize b)
  /\ (forall request1 request2,
        same_spelling (qname (q request1)) (qname (q request2)) ->
        query_name request1 = query_name request2
        /\ forall qt r,
             exact_match (query_name request1) qt r
               = exact_match (query_name request2) qt r
             /\ wildcard_only_match (query_name request1) qt r
                = wildcard_only_match (query_name request2) qt r)
  /\ (forall r1 r2,
        same_spelling (rname r1) (rname r2) -> rtype r1 = rtype r2 ->
        forall qn qt,
          exact_match qn qt r1 = exact_match qn qt r2
          /\ wildcard_only_match qn qt r1 = wildcard_only_match qn qt r2).
Proof.
  split; [exact normalize_idem|]. split; [exact same_spelling_normalize|]. split.
  - intros request1 request2 Hs.
    assert (Hq : query_name request1 = query_name request2).
    { unfold query_name. rewrite !normalize_rstrip. now apply same_spelling_normalize. }
    rewrite Hq. auto.
  - intros r1 r2 Hs Ht qn qt.
    unfold exact_match, wildcard_only_match, type_match.
    now rewrite (same_spelling_normalize _ _ Hs), Ht.
Qed.

End WithLib.

(** *** The resolver on the sample library *)
Import Sample.

(** The query [Foo.example.com.] against a wildcard and two spellings of
    the exact name: the two exact records answer, in their order. *)
Lemma override_exact_match_wins_witness :
  exists reply,
    rr reply = [a_record "foo.example.COM." "10.0.0.2";
                a_record "foo.example.com" "10.0.0.3"]
    /\ @resolve lib (a_query "Foo.example.com.") handler
         (world [a_record "foo.example.com." "192.0.2.1"]
                [a_record "*.example.com." "10.0.0.1";
                 a_record "foo.example.COM." "10.0.0.2";
                 a_record "foo.example.com" "10.0.0.3"]
                [Receives [Byte.x01]])
       = (inr (Some reply),
          mkWorld (bumped 1 (resolver [a_record "foo.example.com." "192.0.2.1"]
                               [a_record "*.example.com." "10.0.0.1";
                                a_record "foo.example.COM." "10.0.0.2";
                                a_record "foo.example.com" "10.0.0.3"]))
                  (mkNet [Receives [Byte.x01]] [])).
Proof.
  destruct (@override_exact_match_wins lib (a_query "Foo.example.com.") handler
              [a_record "*.example.com." "10.0.0.1";
               a_record "foo.example.COM." "10.0.0.2";
               a_record "foo.example.com" "10.0.0.3"] 0)
    as (reply & Hrr & _ & _ & Hres).
  - exists (a_record "foo.example.COM." "10.0.0.2").
    split; [right; left; reflexivity | by_running].
  - exists reply. split; [rewrite Hrr; by_running | apply Hres].
Defined.

(** The query [intranet.local] against a zone with two records for it: the
    first one answers, with the flag set. *)
Lemma zone_first_match_authoritative_witness :
  exists reply,
    fst (@resolve lib (a_query "intranet.local.") handler
           (world [a_record "printer.local." "10.0.0.9";
                   a_record "intranet.local." "10.0.0.5";
                   a_record "intranet.local." "10.0.0.6"]
                  [a_record "*.ads.example.com." "0.0.0.0"] []))
      = inr (Some reply)
    /\ rr reply = [a_record "intranet.local." "10.0.0.5"]
    /\ aa (header reply) = true.
Proof.
  destruct (@zone_first_match_authoritative lib (a_query "intranet.local.") handler
              [a_record "*.ads.example.com." "0.0.0.0"]
              [a_record "printer.local." "10.0.0.9"]
              (a_record "intranet.local." "10.0.0.5")
              [a_record "intranet.local." "10.0.0.6"]
              "9.9.9.9" "1.1.1.1" 0 (mkNet [] []))
    as (reply & Hres & Hrr & Haa).
  - repeat constructor.
  - repeat constructor.
  - by_running.
  - exists reply. split; [|split; assumption].
    unfold world, resolver. cbn [app] in Hres. now rewrite Hres.
Defined.

(** C4, as stated, fails on the zone set: two zone records match the query
    [intranet.local], and the reply holds the first of them only. *)
Lemma zone_answers_first_only :
  List.filter
    (@exact_match lib (query_name (a_query "intranet.local.")) "A")
    [a_record "intranet.local." "10.0.0.5"; a_record "intranet.local." "10.0.0.6"]
  = [a_record "intranet.local." "10.0.0.5"; a_record "intranet.local." "10.0.0.6"]
  /\ fst (@resolve lib (a_query "intranet.local.") handler
            (world [a_record "intranet.local." "10.0.0.5";
                    a_record "intranet.local." "10.0.0.6"] [] []))
     = inr (Some {| header := mkHeader 7 true true true;
                    q := mkQ (chars "intranet.local.") 1 1;
                    rr := [a_record "intranet.local." "10.0.0.5"] |}).
Proof. split; by_running. Qed.

(** Two wildcard overrides for one name: both answer, in their order. *)
Lemma override_answers_in_order_witness :
  exists reply,
    fst (@resolve lib (a_query "tracker.ads.example.com") handler
           (world [] [a_record "*.ads.example.com." "0.0.0.0";
                      a_record "ads.example.com." "192.0.2.7";
                      a_record "*.ADS.example.com." "0.0.0.1"] []))
      = inr (Some reply)
    /\ rr reply = [a_record "*.ads.example.com." "0.0.0.0";
                   a_record "*.ADS.example.com." "0.0.0.1"].
Proof.
  destruct (@override_answers_in_order lib (a_query "tracker.ads.example.com") handler
              [] [a_record "*.ads.example.com." "0.0.0.0";
                  a_record "ads.example.com." "192.0.2.7";
                  a_record "*.ADS.example.com." "0.0.0.1"]
              "9.9.9.9" "1.1.1.1" 0 (mkNet [] []))
    as (reply & Hres & Hrr & _).
  - vm_compute. discriminate.
  - exists reply. split; [unfold world, resolver; now rewrite Hres|].
    rewrite Hrr. by_running.
Defined.

(** The primary cannot be reached and the backup answers; then both fail,
    the primary in [send] and the backup in [parse]; then the primary fails
    and the backup never answers. *)
Lemma upstream_fallback_witness :
  (fst (@resolve lib (a_query "google.com.") handler
          (world [a_record "intranet.local." "10.0.0.5"]
                 [a_record "*.ads.example.com." "0.0.0.0"]
                 [Raises unreachable; Receives [Byte.x07]]))
     = inr (Some (response_of Byte.x07))
   /\ sent (net (snd (@resolve lib (a_query "google.com.") handler
          (world [a_record "intranet.local." "10.0.0.5"]
                 [a_record "*.ads.example.com." "0.0.0.0"]
                 [Raises unreachable; Receives [Byte.x07]]))))
      = [forwarded (a_query "google.com.") "9.9.9.9";
         forwarded (a_query "google.com.") "1.1.1.1"])
  /\ (fst (@resolve lib (a_query "google.com.") handler
          (world [a_record "intranet.local." "10.0.0.5"]
                 [a_record "*.ads.example.com." "0.0.0.0"]
                 [Raises unreachable; Receives []]))
     = inr None)
  /\ (fst (@resolve lib (a_query "google.com.") handler
          (world [a_record "intranet.local." "10.0.0.5"]
                 [a_record "*.ads.example.com." "0.0.0.0"]
                 [Receives []; Silent]))
     = inl Blocked).
Proof.
  split; [|split].
  - destruct (@upstream_fallback lib (a_query "google.com.") handler
                [a_record "intranet.local." "10.0.0.5"]
                [a_record "*.ads.example.com." "0.0.0.0"]
                "9.9.9.9" "1.1.1.1" 0
                (mkNet [Raises unreachable; Receives [Byte.x07]] []))
      as (_ & Hbackup & _); [repeat constructor | repeat constructor |].
    destruct (Hbackup (response_of Byte.x07))
      as [Hfst Hsent]; [reflexivity | reflexivity |].
    split; [exact Hfst | exact Hsent].
  - destruct (@upstream_fallback lib (a_query "google.com.") handler
                [a_record "intranet.local." "10.0.0.5"]
                [a_record "*.ads.example.com." "0.0.0.0"]
                "9.9.9.9" "1.1.1.1" 0 (mkNet [Raises unreachable; Receives []] []))
      as (_ & _ & Hnone & _); [repeat constructor | repeat constructor |].
    destruct Hnone as [Hfst _]; [reflexivity | reflexivity | exact Hfst].
  - destruct (@upstream_fallback lib (a_query "google.com.") handler
                [a_record "intranet.local." "10.0.0.5"]
                [a_record "*.ads.example.com." "0.0.0.0"]
                "9.9.9.9" "1.1.1.1" 0 (mkNet [Receives []; Silent] []))
      as (_ & _ & _ & _ & Hwait); [repeat constructor | repeat constructor |].
    destruct Hwait as [Hfst _]; [reflexivity | reflexivity | exact Hfst].
Defined.

(** C5, as stated, fails on an upstream that does not answer: the primary
    is silent and the backup would answer with a response that parses, yet
    [resolve] sends one datagram, to the primary, and does not return. *)
Lemma silent_primary_is_waited_for :
  @attempt lib (Receives [Byte.x07]) = Some (response_of Byte.x07)
  /\ fst (@resolve lib (a_query "google.com.") handler
            (world [a_record "intranet.local." "10.0.0.5"]
                   [a_record "*.ads.example.com." "0.0.0.0"]
                   [Silent; Receives [Byte.x07]]))
     = inl Blocked
  /\ sent (net (snd (@resolve lib (a_query "google.com.") handler
                       (world [a_record "intranet.local." "10.0.0.5"]
                              [a_record "*.ads.example.com." "0.0.0.0"]
                              [Silent; Receives [Byte.x07]]))))
     = [forwarded (a_query "google.com.") "9.9.9.9"].
Proof. split; [|split]; by_running. Qed.

(** A query of type ANY meets an A record; a stored record of type ANY
    (255) does not meet a query of type A. *)
Lemma type_match_any_query_side_witness :
  @type_match lib "ANY" (a_record "intranet.local." "10.0.0.5") = true
  /\ @type_match lib "A" (mkRR (chars "intranet.local.") 255 1 60 (chars "")) = false.
Proof.
  destruct (@type_match_any_query_side lib) as (Hquery & Hstore & _).
  split; [apply Hquery | apply Hstore; [reflexivity | discriminate]].
Defined.

Ltac case_variants :=
  repeat (constructor;
          [ first [ left; reflexivity
                  | right; left; split; [vm_compute; split; discriminate | reflexivity]
                  | right; right; split; [vm_compute; split; discriminate | reflexivity] ]
          | ]);
  try constructor.

(** [Example.COM] and [example.com.] are one name. *)
Lemma normalize_canonical_witness :
  normalize (chars "Example.COM") = normalize (chars "example.com.")
  /\ normalize (normalize (chars "Example.COM")) = normalize (chars "Example.COM").
Proof.
  destruct (@normalize_canonical lib) as (Hidem & Hsame & _).
  split; [|apply Hidem].
  apply Hsame.
  exists (chars "Example.COM"), (chars "example.com"), 0, 1.
  split; [reflexivity|]. split; [reflexivity|].
  unfold chars. cbn [list_ascii_of_string]. case_variants.
Defined.

(** C2, at the root: the override owner [*.] is normalised to [*.], its
    suffix is the empty string, which [split] cuts into one piece, so the
    two-label name [google.com.] matches it and the one-label name [com.]
    does not, although the root has no label at all; [resolve] answers the
    query [google.com] from that override and sends the query [com] on to
    the upstreams. *)
Theorem wildcard_root_suffix_counts_as_one_label :
  normalize (chars "*.") = chars "*."
  /\ slice_from 2 (normalize (chars "*.")) = []
  /\ length (labels (normalize (chars ""))) = 0
  /\ length (labels (normalize (chars "google.com"))) = 2
  /\ wildcard_match (normalize (chars "google.com")) (normalize (chars "*.")) = true
  /\ length (labels (normalize (chars "com"))) = 1
  /\ wildcard_match (normalize (chars "com")) (normalize (chars "*.")) = false
  /\ fst (@resolve lib (a_query "google.com.") handler
            (world [] [a_record "*." "10.0.0.1"] []))
     = inr (Some {| header := mkHeader 7 true true true;
                    q := mkQ (chars "google.com.") 1 1;
                    rr := [a_record "*." "10.0.0.1"] |})
  /\ sent (net (snd (@resolve lib (a_query "com.") handler
                       (world [] [a_record "*." "10.0.0.1"]
                              [Raises unreachable; Raises unreachable]))))
     = [forwarded (a_query "com.") "9.9.9.9"; forwarded (a_query "com.") "1.1.1.1"].
Proof. repeat (split; [by_running|]). by_running. Qed.

End ResolverFacts.

(** ** The lifecycle controller *)
Module LifecycleFacts.
Import PyStr Py Dnslib Resolver Lifecycle Spec.

(** Building the resolver reads the configuration and the files; it
    changes nothing. *)
Lemma DNSResolver_init_pure {S} host cfg (s : S) :
  snd (DNSResolver_init host cfg s) = s.
Proof.
  unfold DNSResolver_init, config_get. run_py.
  repeat case_match; simplify_eq; reflexivity.
Qed.

(** What [_start_dns_server] leaves behind: on return the server runs with
    a listener; when it raises, the state and the configuration are as
    before and the listener is the old one or a new one. *)
Lemma _start_dns_server_post host s :
  config (snd (_start_dns_server host s)) = config s
  /\ match fst (_start_dns_server host s) with
     | inr _ =>
         state (snd (_start_dns_server host s)) = "running"
         /\ dns_server (snd (_start_dns_server host s)) <> None
     | inl _ =>
         state (snd (_start_dns_server host s)) = state s
         /\ (dns_server (snd (_start_dns_server host s)) = dns_server s
             \/ dns_server (snd (_start_dns_server host s)) <> None)
     end.
Proof.
  unfold _start_dns_server. run_py.
  pose proof (DNSResolver_init_pure host (config s) s) as Hpure.
  destruct (DNSResolver_init host (config s) s) as [[e|resolver] s1];
    cbn in Hpure; subst s1.
  - cbn. auto.
  - unfold config_get. run_py.
    repeat case_match; simplify_eq; cbn; auto;
      split; auto; split; auto; right; discriminate.
Qed.

(** What [_stop_dns_server] leaves behind: on return the server is stopped;
    when it raises nothing has changed. *)
Lemma _stop_dns_server_post host s :
  match fst (_stop_dns_server host s) with
  | inr _ => snd (_stop_dns_server host s) = set_state "not running" s
             /\ dns_server s <> None
  | inl _ => snd (_stop_dns_server host s) = s
  end.
Proof.
  unfold _stop_dns_server. run_py.
  destruct (dns_server s) as [server|]; [|reflexivity].
  destruct (stop_server host server); [reflexivity|].
  split; [reflexivity | discriminate].
Qed.

Lemma start_final host s :
  snd (start host s) =
  if bool_decide (state s = "running") then s else snd (_start_dns_server host s).
Proof.
  unfold start, state_change_error. run_py.
  destruct (bool_decide (state s = "running")); [reflexivity|].
  destruct (_start_dns_server host s) as [[e|[]] s']; reflexivity.
Qed.

Lemma stop_final host s :
  snd (stop host s) =
  if bool_decide (state s = "not running") then s else snd (_stop_dns_server host s).
Proof.
  unfold stop, state_change_error. run_py.
  destruct (bool_decide (state s = "not running")); [reflexivity|].
  destruct (_stop_dns_server host s) as [[e|[]] s']; reflexivity.
Qed.

Lemma restart_final host s :
  snd (restart host s) =
  if bool_decide (state s = "not running") then s
  else match fst (_stop_dns_server host s) with
       | inr _ => snd (_start_dns_server host (snd (_stop_dns_server host s)))
       | inl _ => snd (_stop_dns_server host s)
       end.
Proof.
  unfold restart, _restart_dns_server, state_change_error. run_py.
  destruct (bool_decide (state s = "not running")); [reflexivity|].
  destruct (_stop_dns_server host s) as [[e|[]] s1]; cbn [fst snd]; [reflexivity|].
  destruct (_start_dns_server host s1) as [[e|[]] s2]; reflexivity.
Qed.

(** The check of an assignment hands the value on as it is, and the empty
    value passes it. *)
Lemma before_set_value value v : before_set value = inr v -> v = value.
Proof. unfold before_set. destruct (find_percent _); congruence. Qed.

Lemma checked_value value :
  (if bool_decide (value = "") then inr value else before_set value) = before_set value.
Proof. case_bool_decide as Hv; [subst value|]; reflexivity. Qed.

Lemma before_set_class value e : before_set value = inl e -> exn_class_of e = ValueError.
Proof. unfold before_set. destruct (find_percent _); [|discriminate]. now intros [= <-]. Qed.

(** Text without a percent sign passes the check of an assignment. *)
Lemma drop_escaped_percent_plain value :
  find_percent value = None -> drop_escaped_percent value = value.
Proof.
  induction value as [|c rest IH]; [reflexivity|].
  cbn [find_percent drop_escaped_percent].
  destruct (is_percent c) eqn:Hc; [discriminate|]. cbn [andb].
  intros Hr. destruct (find_percent rest) eqn:Hf; [discriminate|].
  destruct rest as [|c' rest']; [reflexivity|]. now rewrite IH.
Qed.

Lemma drop_references_plain value :
  find_percent value = None -> drop_references 0 value = value.
Proof.
  induction value as [|c rest IH]; [reflexivity|].
  cbn [find_percent drop_references].
  destruct (is_percent c) eqn:Hc; [discriminate|].
  intros Hr. destruct (find_percent rest) eqn:Hf; [discriminate|].
  unfold reference_length. destruct rest as [|c' rest'].
  - reflexivity.
  - rewrite Hc. cbn [andb]. now rewrite IH.
Qed.

Lemma plain_accepted value : plain value = true -> before_set value = inr value.
Proof.
  unfold plain, before_set. destruct (find_percent value) eqn:Hf; [discriminate|].
  intros _. now rewrite drop_escaped_percent_plain, drop_references_plain, Hf.
Qed.

(** [configure] in one equation. *)
Lemma configure_eq setting value s :
  configure setting value s =
  if bool_decide (setting ∈ settings)
  then match config s !! "DNS" with
       | None => (inl (key_error "DNS"), s)
       | Some section =>
           match before_set value with
           | inl e => (inl e, s)
           | inr _ =>
               (inr tt,
                set_config (<["DNS" := <[setting := value]> section]> (config s)) s)
           end
       end
  else (inl (Exn ConfigurationError ("Invalid setting '" ++ setting ++ "'!")), s).
Proof.
  unfold configure, config_set. run_py.
  destruct (bool_decide (setting ∈ settings)); [|reflexivity].
  destruct (config s !! "DNS") as [section|]; [|reflexivity].
  rewrite checked_value.
  destruct (before_set value) as [e|v] eqn:Hb; [reflexivity|].
  now rewrite (before_set_value _ _ Hb).
Qed.

Lemma configure_final setting value s :
  state (snd (configure setting value s)) = state s
  /\ dns_server (snd (configure setting value s)) = dns_server s.
Proof.
  rewrite configure_eq.
  destruct (bool_decide (setting ∈ settings)); [|split; reflexivity].
  destruct (config s !! "DNS"); [|split; reflexivity].
  destruct (before_set value); split; reflexivity.
Qed.

Lemma _start_dns_server_ok host s :
  state_ok s -> state_ok (snd (_start_dns_server host s)).
Proof.
  intros [Hs Hl]. destruct (_start_dns_server_post host s) as [_ Hp].
  destruct (fst (_start_dns_server host s)).
  - destruct Hp as [Hst Hd]. split; [now rewrite Hst|].
    rewrite Hst. intros Hr. destruct Hd as [-> | Hd]; auto.
  - destruct Hp as [Hst Hd]. split; [now right | auto].
Qed.

Lemma _stop_dns_server_ok host s :
  state_ok s -> state_ok (snd (_stop_dns_server host s)).
Proof.
  intros Hok. pose proof (_stop_dns_server_post host s) as Hp.
  destruct (fst (_stop_dns_server host s)).
  - now rewrite Hp.
  - destruct Hp as [-> _]. split; [now left | discriminate].
Qed.

(** Every call keeps the invariant, whether it returns or raises. *)
Lemma run_state_ok host c s : state_ok s -> state_ok (snd (run host c s)).
Proof.
  intros Hok. destruct c as [| | |setting value]; cbn [run].
  - rewrite start_final. case_bool_decide; auto using _start_dns_server_ok.
  - rewrite stop_final. case_bool_decide; auto using _stop_dns_server_ok.
  - rewrite restart_final. case_bool_decide; [assumption|].
    destruct (fst (_stop_dns_server host s));
      auto using _start_dns_server_ok, _stop_dns_server_ok.
  - destruct (configure_final setting value s) as [Hst Hd].
    destruct Hok as [Hs Hl]. split; rewrite Hst; [assumption|]. now rewrite Hd.
Qed.

Lemma init_state_ok cfg : state_ok (DNSServer_init cfg).
Proof. split; [now left | discriminate]. Qed.

(** C10: a fresh controller, and a controller after any sequence of start,
    stop, restart and configure calls, each returning or raising, has its
    state equal to "not running" or to "running", and holds a listener
    whenever its state is "running"; so whenever [stop] gets past its guard
    there is a listener to stop. *)
Theorem reachable_state_ok s :
  reachable s ->
  state_ok s /\ (state s <> "not running" -> exists server, dns_server s = Some server).
Proof.
  intros Hr.
  assert (Hok : state_ok s).
  { induction Hr as [cfg | host c s _ IH];
      [apply init_state_ok | now apply run_state_ok]. }
  split; [exact Hok|].
  destruct Hok as [[Hs | Hs] Hl]; [congruence|].
  intros _. destruct (dns_server s) as [server|]; [now exists server | now destruct Hl].
Qed.

(** C6: [start] on a running server, [stop] on a server that is not
    running and [restart] on a server that is not running each raise
    [StateChangeError] and leave the controller, its state included, as it
    was. *)
Theorem lifecycle_precondition_violations host s :
  (state s = "running" ->
   start host s = (inl (Exn StateChangeError "DNS server is already started!"), s))
  /\ (state s = "not running" ->
      stop host s = (inl (Exn StateChangeError "DNS server is already stopped!"), s))
  /\ (state s = "not running" ->
      restart host s = (inl (Exn StateChangeError "DNS server has not been started!"), s)).
Proof.
  unfold start, stop, restart, state_change_error. run_py.
  repeat split; intros ->; reflexivity.
Qed.

(** C7, as amended: [configure] raises [ConfigurationError] exactly when
    the setting is none of the seven names, and then the controller is
    unchanged; for one of the seven names and a value without a percent
    sign, with the section [DNS] present, it returns, the option of that name
    in [DNS] now holds the value, every other option and every other section
    is as before, and so are the state and the listener with its record
    sets.  A value with a percent sign is checked by the configuration
    parser: when the parser accepts it, [configure] returns and the state and
    the listener are as before; when the parser refuses it, its
    [ValueError] reaches the caller and the controller is unchanged. *)
Theorem configure_recognized_settings setting value s :
  let seven := ["zone_file"; "override_file"; "primary_upstream"; "backup_upstream";
                "laddr"; "lport"; "ttl"] in
  ((exists msg, fst (configure setting value s) = inl (Exn ConfigurationError msg))
     <-> ~ In setting seven)
  /\ (~ In setting seven -> snd (configure setting value s) = s)
  /\ (forall section, In setting seven -> config s !! "DNS" = Some section ->
        plain value = true ->
        fst (configure setting value s) = inr tt
        /\ config (snd (configure setting value s))
           = <["DNS" := <[setting := value]> section]> (config s)
        /\ (<[setting := value]> section) !! setting = Some value
        /\ (forall other, other <> setting ->
              (<[setting := value]> section) !! other = section !! other)
        /\ state (snd (configure setting value s)) = state s
        /\ dns_server (snd (configure setting value s)) = dns_server s)
  /\ (forall section, In setting seven -> config s !! "DNS" = Some section ->
        before_set value = inr value ->
        fst (configure setting value s) = inr tt
        /\ state (snd (configure setting value s)) = state s
        /\ dns_server (snd (configure setting value s)) = dns_server s)
  /\ (forall section e, In setting seven -> config s !! "DNS" = Some section ->
        before_set value = inl e ->
        configure setting value s = (inl e, s) /\ exn_class_of e = ValueError).
Proof.
  cbv zeta. fold settings.
  pose proof (list_elem_of_In settings setting) as Hiff.
  rewrite configure_eq.
  case_bool_decide as Hin; cbn [fst snd].
  - split; [|split; [|split; [|split]]].
    + split; [|tauto]. intros [msg Hm].
      destruct (config s !! "DNS"); [|discriminate].
      destruct (before_set value) as [e|v] eqn:Hb; [|discriminate].
      apply before_set_class in Hb. cbn [fst] in Hm. injection Hm as ->. discriminate.
    + tauto.
    + intros section _ -> Hp. rewrite (plain_accepted _ Hp).
      cbn [fst snd config state dns_server set_config].
      repeat split; [apply lookup_insert_eq|].
      intros other Hne. now apply lookup_insert_ne.
    + intros section _ -> ->. repeat split.
    + intros section e _ -> Hb. rewrite Hb. split; [reflexivity|].
      now apply before_set_class in Hb.
  - split; [|split; [|split; [|split]]].
    + split; [tauto | eauto].
    + reflexivity.
    + tauto.
    + tauto.
    + tauto.
Qed.

(** *** The controller on the sample host *)
Import Sample.

(** A second [start], and [stop] and [restart] before any [start]. *)
Lemma lifecycle_precondition_violations_witness :
  start host (snd (start host (DNSServer_init cfg)))
    = (inl (Exn StateChangeError "DNS server is already started!"),
       snd (start host (DNSServer_init cfg)))
  /\ stop host (DNSServer_init cfg)
     = (inl (Exn StateChangeError "DNS server is already stopped!"),
        DNSServer_init cfg)
  /\ restart host (DNSServer_init cfg)
     = (inl (Exn StateChangeError "DNS server has not been started!"),
        DNSServer_init cfg).
Proof.
  split; [|split].
  - apply (lifecycle_precondition_violations host
             (snd (start host (DNSServer_init cfg)))). by_running.
  - apply (lifecycle_precondition_violations host (DNSServer_init cfg)). reflexivity.
  - apply (lifecycle_precondition_violations host (DNSServer_init cfg)). reflexivity.
Defined.

(** [configure("ttl", "300")] is taken, [configure("bogus", "x")] is
    turned down, and the parser refuses [configure("lport", "%53")]. *)
Lemma configure_recognized_settings_witness :
  (fst (configure "ttl" "300" (DNSServer_init cfg)) = inr tt
   /\ config (snd (configure "ttl" "300" (DNSServer_init cfg)))
      = <["DNS" := <["ttl" := "300"]> dns_section]> cfg)
  /\ snd (configure "bogus" "x" (DNSServer_init cfg)) = DNSServer_init cfg
  /\ configure "lport" "%53" (DNSServer_init cfg)
     = (inl (Exn ValueError "invalid interpolation syntax in '%53' at position 0"),
        DNSServer_init cfg).
Proof.
  split; [|split].
  - destruct (configure_recognized_settings "ttl" "300" (DNSServer_init cfg))
      as (_ & _ & Hset & _).
    destruct (Hset dns_section) as (Hret & Hcfg & _).
    + cbn [In]. tauto.
    + apply lookup_singleton_eq.
    + reflexivity.
    + split; [exact Hret | exact Hcfg].
  - apply (configure_recognized_settings "bogus" "x" (DNSServer_init cfg)).
    cbn [In]. intros Hin.
    repeat (destruct Hin as [Hin | Hin]; [discriminate Hin|]). exact Hin.
  - destruct (configure_recognized_settings "lport" "%53" (DNSServer_init cfg))
      as (_ & _ & _ & _ & Hrefused).
    apply (Hrefused dns_section).
    + cbn [In]. tauto.
    + apply lookup_singleton_eq.
    + reflexivity.
Defined.

(** C7, as stated, fails on a value with a lone percent sign: [ttl] is one
    of the seven names and the section [DNS] is there, yet
    [configure("ttl", "50%")] raises [ValueError] and [ttl] keeps its
    value. *)
Lemma configure_refuses_a_lone_percent :
  In "ttl" settings
  /\ config (DNSServer_init cfg) !! "DNS" = Some dns_section
  /\ dns_section !! "ttl" = Some "60"
  /\ configure "ttl" "50%" (DNSServer_init cfg)
     = (inl (Exn ValueError "invalid interpolation syntax in '50%' at position 2"),
        DNSServer_init cfg).
Proof.
  split; [cbn; tauto|]. split; [apply lookup_singleton_eq|]. split; [by_running|].
  rewrite configure_eq.
  rewrite bool_decide_eq_true_2 by (apply list_elem_of_In; cbn; tauto).
  cbn [DNSServer_init config]. unfold cfg. rewrite lookup_singleton_eq. reflexivity.
Qed.

(** The controller after [start] on the sample host runs with a listener. *)
Lemma reachable_state_ok_witness :
  state_ok (snd (run host Start (DNSServer_init cfg)))
  /\ state (snd (run host Start (DNSServer_init cfg))) = "running".
Proof.
  split; [|by_running].
  apply (reachable_state_ok (snd (run host Start (DNSServer_init cfg)))).
  apply reachable_call, reachable_init.
Defined.

End LifecycleFacts.

(** * Further facts

    ** The resolver on every input *)
Module ResolverMore.
Import PyStr Names Py Dnslib Resolver Spec Observed PyStrFacts NamesFacts ResolverFacts.

Section WithLib.
Context `{Lib}.

Lemma filter_nil_existsb {A} (p : A -> bool) (l : list A) :
  List.filter p l = [] <-> existsb p l = false.
Proof.
  induction l as [|x l IH]; simpl; [tauto|].
  destruct (p x); simpl; [split; discriminate | exact IH].
Qed.

Lemma winners_nil_iff qn qt overrides :
  winners qn qt overrides = [] <-> existsb (override_match qn qt) overrides = false.
Proof.
  unfold winners, or_list, override_match.
  induction overrides as [|o l IH]; simpl; [tauto|].
  destruct (exact_match qn qt o) eqn:He; simpl; [split; discriminate|].
  destruct (wildcard_only_match qn qt o) eqn:Hw; simpl.
  - split; [|discriminate].
    destruct (List.filter (exact_match qn qt) l); discriminate.
  - exact IH.
Qed.

Lemma zone_tier_none_iff zone qn qt reply :
  zone_tier zone qn qt reply = None <-> existsb (exact_match qn qt) zone = false.
Proof.
  induction zone as [|z l IH]; simpl; [tauto|].
  fold (exact_match qn qt z). destruct (exact_match qn qt z); simpl;
    [split; discriminate | exact IH].
Qed.

(** The two ways [resolve] goes: a local tier answers and nothing else
    happens but the count, or the upstream tier runs. *)
Lemma resolve_cases request handler (w : World) :
  (answered_locally (query_name request) (QTYPE (qtype (q request)))
     (dns_override_records (self w)) (dns_zone_records (self w)) = true
   /\ exists reply,
        resolve request handler w
        = (inr (Some reply), mkWorld (bumped 1 (self w)) (net w))
        /\ q reply = q request)
  \/ (answered_locally (query_name request) (QTYPE (qtype (q request)))
        (dns_override_records (self w)) (dns_zone_records (self w)) = false
      /\ resolve request handler w
         = upstream_tier [primary_upstream (self w); backup_upstream (self w)]
             request w).
Proof.
  destruct w as [[zone overrides primary backup n] nt]. cbn [self net
    dns_override_records dns_zone_records primary_upstream backup_upstream].
  unfold answered_locally, bumped. cbn [dns_zone_records dns_override_records
    primary_upstream backup_upstream query].
  destruct (winners (query_name request) (QTYPE (qtype (q request))) overrides)
    as [|m ms] eqn:Ew.
  - pose proof (proj1 (winners_nil_iff _ _ _) Ew) as Ho. rewrite Ho. cbn [orb].
    destruct (zone_tier zone (query_name request) (QTYPE (qtype (q request)))
                (DNSRecord_reply request)) as [reply|] eqn:Ez.
    + left. split.
      * destruct (existsb _ zone) eqn:Hz; [reflexivity|].
        apply zone_tier_none_iff with (reply := DNSRecord_reply request) in Hz.
        congruence.
      * exists reply. split; [apply resolve_zone; assumption|].
        clear Ew Ho. induction zone as [|z l IH]; [discriminate|].
        cbn [zone_tier] in Ez. destruct (_ && _); [|now apply IH].
        injection Ez as <-. reflexivity.
    + right. split; [now apply zone_tier_none_iff in Ez|].
      apply resolve_upstream; assumption.
  - left. split.
    + destruct (existsb _ overrides) eqn:Ho; [reflexivity|].
      apply winners_nil_iff in Ho. congruence.
    + eexists. split; [apply resolve_override; eassumption | reflexivity].
Qed.

(** What the upstream tier does on two upstreams, in one equation. *)
Lemma upstream_tier_two request (w : World) primary backup :
  upstream_tier [primary; backup] request w
  = (if waits (net w) then inl Blocked
     else inr (match attempt (outcome_at (net w) 0) with
               | Some response => Some response
               | None => attempt (outcome_at (net w) 1)
               end),
     mkWorld (bumped ((if waits (net w) then 0 else 1) + garbled_responses (net w))
                (self w))
       (mkNet (drop (length (forwards request primary backup (net w)))
                 (outcomes (net w)))
              (sent (net w) ++ forwards request primary backup (net w)))).
Proof.
  destruct w as [slf [outs log]].
  unfold waits, garbled_responses, forwards, outcome_at. cbn [net outcomes sent self].
  rewrite upstream_tier_step. cbv zeta.
  assert (Hnth : nth 1 outs Silent = nth 0 (tl outs) Silent)
    by (destruct outs as [|? [|? ?]]; reflexivity).
  rewrite Hnth.
  assert (Hd1 : drop 1 outs = tl outs) by (destruct outs; reflexivity).
  assert (Hd2 : drop 2 outs = tl (tl outs)) by (destruct outs as [|? [|? ?]]; reflexivity).
  assert (Hb : forall k slf', bumped k (bumped 1 slf') = bumped (1 + k) slf').
  { intros k [z o p b n]. unfold bumped. cbn. f_equal. lia. }
  assert (Hb0 : forall slf', slf' = bumped 0 slf').
  { intros [z o p b n]. unfold bumped. cbn. f_equal. lia. }
  destruct (nth 0 outs Silent) as [e1|b1|] eqn:E1; cbn [attempt garbled failed silent].
  - rewrite upstream_tier_step. cbv zeta.
    destruct (nth 0 (tl outs) Silent) as [e2|b2|] eqn:E2;
      cbn [attempt garbled failed silent orb andb length].
    + rewrite upstream_tier_end. cbn [self net]. rewrite Hd2, <- app_assoc.
      reflexivity.
    + destruct (DNSRecord_parse b2) as [pe|r2].
      * rewrite upstream_tier_end. cbn [self net]. rewrite Hd2, <- app_assoc, Hb.
        reflexivity.
      * rewrite Hd2, <- app_assoc. reflexivity.
    + rewrite Hd2, <- app_assoc. cbn [Nat.add]. rewrite <- Hb0. reflexivity.
  - destruct (DNSRecord_parse b1) as [pe1|r1]; cbn [orb andb length].
    + rewrite upstream_tier_step. cbv zeta.
      destruct (nth 0 (tl outs) Silent) as [e2|b2|] eqn:E2;
        cbn [attempt garbled failed silent orb andb].
      * rewrite upstream_tier_end. cbn [self net]. rewrite Hd2, <- app_assoc, Hb.
        reflexivity.
      * destruct (DNSRecord_parse b2) as [pe|r2].
        -- rewrite upstream_tier_end. cbn [self net]. rewrite Hd2, <- app_assoc, !Hb.
           reflexivity.
        -- rewrite Hd2, <- app_assoc, Hb. reflexivity.
      * rewrite Hd2, <- app_assoc. reflexivity.
    + rewrite Hd1. reflexivity.
  - cbn [orb length Nat.add]. rewrite Hd1, <- Hb0. reflexivity.
Qed.

Lemma garbled_responses_le (n : Net) : garbled_responses n <= 2.
Proof.
  unfold garbled_responses.
  destruct (garbled (outcome_at n 0)), (failed (outcome_at n 0) && garbled (outcome_at n 1));
    cbn; lia.
Qed.

(** X1: [resolve] never raises: whatever the request, the record sets and
    the network do, no exception leaves it, every failure of an upstream
    being caught inside; it returns a reply or [None], unless no local tier
    answers and an upstream it waits for never answers, and then it does not
    return. *)
Theorem resolve_never_raises request handler (w : World) :
  (forall e, fst (resolve request handler w) <> inl (Raised e))
  /\ (hangs request w = false ->
      exists result, fst (resolve request handler w) = inr result)
  /\ (hangs request w = true -> fst (resolve request handler w) = inl Blocked).
Proof.
  unfold hangs.
  destruct (resolve_cases request handler w) as [[-> (reply & -> & _)] | [-> ->]].
  - cbn [fst negb andb]. split; [discriminate|]. split; [eauto | discriminate].
  - rewrite upstream_tier_two. cbn [fst negb andb].
    destruct (waits (net w)).
    + split; [discriminate|]. split; [discriminate | reflexivity].
    + split; [discriminate|]. split; [eauto | discriminate].
Qed.

(** X2: [resolve] reads the record sets and the upstream addresses and never
    writes them: after any call the zone records, the override records and
    the two upstream addresses of the resolver are what they were. *)
Theorem resolve_keeps_record_sets request handler (w : World) :
  dns_zone_records (self (snd (resolve request handler w))) = dns_zone_records (self w)
  /\ dns_override_records (self (snd (resolve request handler w)))
     = dns_override_records (self w)
  /\ primary_upstream (self (snd (resolve request handler w)))
     = primary_upstream (self w)
  /\ backup_upstream (self (snd (resolve request handler w)))
     = backup_upstream (self w).
Proof.
  destruct (resolve_cases request handler w) as [[_ (reply & -> & _)] | [_ ->]].
  - cbn. tauto.
  - rewrite upstream_tier_two. cbn. tauto.
Qed.

(** X3: the query counter goes up by one for a call answered by a local
    tier, and for a call that went upstream by one plus one for every
    response that arrived and could not be parsed: the count is taken before
    [parse] and again on the next attempt or at the end; so by one, two or
    three.  A call that waits for an upstream has counted the responses that
    arrived before and nothing else. *)
Theorem resolve_query_count request handler (w : World) :
  query (self (snd (resolve request handler w)))
  = query (self w) + (if hangs request w then 0 else 1)
    + (if answered_locally (query_name request) (QTYPE (qtype (q request)))
            (dns_override_records (self w)) (dns_zone_records (self w))
       then 0 else garbled_responses (net w))
  /\ query (self (snd (resolve request handler w))) <= query (self w) + 3.
Proof.
  pose proof (garbled_responses_le (net w)) as Hle. unfold hangs.
  destruct (resolve_cases request handler w) as [[-> (reply & -> & _)] | [-> ->]].
  - cbn. lia.
  - rewrite upstream_tier_two. cbn. destruct (waits (net w)); lia.
Qed.

(** X4: what [resolve] sends: nothing when a local tier answers; otherwise
    the request as received to the primary upstream, port 53 over UDP, and,
    only when that yields no response, the same to the backup upstream (when
    the transaction with the primary failed, that is; not while [resolve]
    waits for the primary); never more than two datagrams, and one outcome
    of the network is used up per datagram. *)
Theorem resolve_datagrams request handler (w : World) :
  sent (net (snd (resolve request handler w)))
  = sent (net w)
    ++ (if answered_locally (query_name request) (QTYPE (qtype (q request)))
             (dns_override_records (self w)) (dns_zone_records (self w))
        then []
        else forwards request (primary_upstream (self w)) (backup_upstream (self w))
               (net w))
  /\ outcomes (net (snd (resolve request handler w)))
     = drop (if answered_locally (query_name request) (QTYPE (qtype (q request)))
                  (dns_override_records (self w)) (dns_zone_records (self w))
             then 0
             else length (forwards request (primary_upstream (self w))
                            (backup_upstream (self w)) (net w)))
         (outcomes (net w))
  /\ length (sent (net (snd (resolve request handler w)))) <= length (sent (net w)) + 2.
Proof.
  destruct (resolve_cases request handler w) as [[-> (reply & -> & _)] | [-> ->]].
  - cbn [snd net sent outcomes self]. rewrite app_nil_r.
    split; [reflexivity|]. split; [reflexivity | lia].
  - rewrite upstream_tier_two. cbn [snd net sent outcomes].
    split; [reflexivity|]. split; [reflexivity|].
    rewrite length_app. unfold forwards.
    destruct (failed (outcome_at (net w) 0)); cbn; lia.
Qed.

(** X5: a reply built by a local tier answers the question of the request;
    built by the override tier it has the header [request.reply()] gave it,
    untouched, so the resolver marks no override answer authoritative; built
    by the zone tier it has that header with the flag [aa] set. *)
Theorem local_reply_header request handler (w : World) :
  (existsb (override_match (query_name request) (QTYPE (qtype (q request))))
     (dns_override_records (self w)) = true ->
   exists reply,
     fst (resolve request handler w) = inr (Some reply)
     /\ q reply = q request
     /\ header reply = reply_header (header request))
  /\ (existsb (override_match (query_name request) (QTYPE (qtype (q request))))
        (dns_override_records (self w)) = false ->
      existsb (exact_match (query_name request) (QTYPE (qtype (q request))))
        (dns_zone_records (self w)) = true ->
      exists reply,
        fst (resolve request handler w) = inr (Some reply)
        /\ q reply = q request
        /\ header reply
           = {| id := id (reply_header (header request));
                qr := qr (reply_header (header request));
                aa := true;
                ra := ra (reply_header (header request)) |}).
Proof.
  destruct w as [[zone overrides primary backup n] nt].
  cbn [self dns_override_records dns_zone_records]. split.
  - intros Ho.
    destruct (winners (query_name request) (QTYPE (qtype (q request))) overrides)
      as [|m ms] eqn:Ew.
    + apply winners_nil_iff in Ew. congruence.
    + eexists. rewrite (resolve_override _ _ _ _ _ _ _ _ _ _ Ew).
      cbn [fst]. split; [reflexivity|]. split; reflexivity.
  - intros Ho Hz. apply winners_nil_iff in Ho.
    destruct (zone_tier zone (query_name request) (QTYPE (qtype (q request)))
                (DNSRecord_reply request)) as [reply|] eqn:Ez.
    + exists reply. rewrite (resolve_zone _ _ _ _ _ _ _ _ _ Ho Ez). cbn [fst].
      split; [reflexivity|]. clear Hz Ho.
      induction zone as [|z l IH]; [discriminate|].
      cbn [zone_tier] in Ez. destruct (_ && _); [|now apply IH].
      injection Ez as <-. split; reflexivity.
    + apply zone_tier_none_iff in Ez. congruence.
Qed.

End WithLib.

Import Sample.

(** With a primary upstream that never answers, a query the zone answers
    returns and a query for any other name does not. *)
Lemma resolve_never_raises_witness :
  (exists result,
     fst (@resolve lib (a_query "intranet.local") handler
            (world [a_record "intranet.local." "10.0.0.5"] [] [Silent]))
     = inr result)
  /\ fst (@resolve lib (a_query "google.com") handler
            (world [a_record "intranet.local." "10.0.0.5"] [] [Silent]))
     = inl Blocked.
Proof.
  split.
  - apply (proj1 (proj2 (@resolve_never_raises lib (a_query "intranet.local") handler
                           (world [a_record "intranet.local." "10.0.0.5"] [] [Silent])))).
    by_running.
  - apply (proj2 (proj2 (@resolve_never_raises lib (a_query "google.com") handler
                           (world [a_record "intranet.local." "10.0.0.5"] [] [Silent])))).
    by_running.
Defined.

(** An override answers [ads.example.com]; the zone answers
    [intranet.local]. *)
Lemma local_reply_header_witness :
  (exists reply,
     fst (@resolve lib (a_query "ads.example.com") handler
            (world [] [a_record "ads.example.com." "0.0.0.0"] []))
       = inr (Some reply)
     /\ header reply = mkHeader 7 true true true)
  /\ (exists reply,
        fst (@resolve lib (a_query "intranet.local") handler
               (world [a_record "intranet.local." "10.0.0.5"] [] []))
          = inr (Some reply)
        /\ header reply = mkHeader 7 true true true).
Proof.
  split.
  - destruct (proj1 (@local_reply_header lib (a_query "ads.example.com") handler
                       (world [] [a_record "ads.example.com." "0.0.0.0"] [])))
      as (reply & Hres & _ & Hh); [by_running|].
    exists reply. split; [exact Hres | exact Hh].
  - destruct (proj2 (@local_reply_header lib (a_query "intranet.local") handler
                       (world [a_record "intranet.local." "10.0.0.5"] [] [])))
      as (reply & Hres & _ & Hh); [by_running | by_running |].
    exists reply. split; [exact Hres | exact Hh].
Defined.

End ResolverMore.

(** ** The stand-alone resolver and its logger *)
Module RougeFacts.
Import PyStr Names Py Dnslib Resolver Spec Observed ResolverFacts ResolverMore.

Section WithLib.
Context `{Lib}.




End WithLib.

End RougeFacts.

(** ** Names and wildcards on every input *)
Module NamesMore.
Import PyStr Names Spec Observed PyStrFacts NamesFacts.

Lemma dots_app a b : dots (a ++ b) = dots a + dots b.
Proof. unfold dots. now rewrite List.filter_app, length_app. Qed.

Lemma dots_lower s : dots (lower s) = dots s.
Proof.
  unfold dots. induction s as [|c t IH]; simpl; [reflexivity|].
  rewrite is_dot_lower. destruct (is_dot c); simpl; now rewrite IH.
Qed.

Lemma rstrip_dot_app_keep a b :
  rstrip_dot b <> [] -> rstrip_dot (a ++ b) = a ++ rstrip_dot b.
Proof.
  intros Hb. induction a as [|c a IH]; [reflexivity|].
  rewrite <- app_comm_cons, rstrip_dot_cons; rewrite IH; [reflexivity|].
  destruct a; [exact Hb | discriminate].
Qed.

Lemma rstrip_dot_split s : exists k, s = rstrip_dot s ++ repeat dot k.
Proof.
  induction s as [|c t [k IH]]; [now exists 0|].
  simpl. destruct (rstrip_dot t) as [|x r] eqn:E.
  - destruct (is_dot c) eqn:D.
    + apply is_dot_true in D. subst c. exists (S k). simpl in *. now rewrite <- IH.
    + exists k. simpl in *. now rewrite <- IH.
  - exists k. rewrite IH at 1. reflexivity.
Qed.

(** The labels of a name written as a body that does not end in a dot,
    followed by one dot. *)
Lemma length_labels_dotted body :
  body <> [] -> rstrip_dot body = body ->
  length (labels (body ++ [dot])) = S (dots body).
Proof.
  intros Hne Hb. unfold labels. rewrite rstrip_dot_app_dot, Hb.
  destruct body; [congruence|]. apply length_split_dot.
Qed.

Lemma normalize_app p s :
  rstrip_dot (lower s) <> [] -> normalize (p ++ s) = lower p ++ normalize s.
Proof.
  intros Hs. unfold normalize.
  rewrite lower_app, rstrip_dot_app_keep by assumption. now rewrite <- app_assoc.
Qed.

(** X6: a wildcard owner [*.<suffix>] whose suffix is not the root matches
    a name made of a prefix and the suffix exactly when the prefix holds one
    dot, wherever the dot stands: [foo.] before the suffix matches, and so
    does [a.x], although the last label then only ends with the first label
    of the suffix; the suffix alone and a prefix with two dots do not.  The
    names it matches are all of this form. *)
Theorem wildcard_prefix_one_dot p s :
  rstrip_dot (lower s) <> [] ->
  (wildcard_match (normalize (p ++ s)) (normalize (chars "*." ++ s)) = true
   <-> dots p = 1)
  /\ (forall q,
        wildcard_match (normalize q) (normalize (chars "*." ++ s)) = true ->
        exists p', normalize q = p' ++ normalize s /\ dots p' = 1).
Proof.
  intros Hs.
  assert (Hbody : forall p',
            length (labels (p' ++ normalize s))
            = S (dots p' + dots (rstrip_dot (lower s)))).
  { intros p'. unfold normalize. rewrite app_assoc.
    rewrite length_labels_dotted, dots_app; [reflexivity | |].
    - destruct p'; [exact Hs | discriminate].
    - rewrite rstrip_dot_app_keep by now rewrite rstrip_dot_idem.
      now rewrite rstrip_dot_idem. }
  assert (Hsuffix : length (labels (normalize s)) = S (dots (rstrip_dot (lower s)))).
  { apply (Hbody []). }
  split.
  - rewrite (wildcard_match_one_label _ _ Hs), (normalize_app p s Hs).
    rewrite Hbody, Hsuffix, dots_lower. split.
    + intros [_ Hl]. lia.
    + intros Hp. split; [|lia]. apply endswith_iff. now exists (lower p).
  - intros q Hm. apply (wildcard_match_one_label _ _ Hs) in Hm as [He Hl].
    apply endswith_iff in He as [p' Hq]. exists p'. split; [exact Hq|].
    rewrite Hq, Hbody, Hsuffix in Hl. lia.
Qed.

(** [tracker.ads.example.com] and [nottracker.xads.example.com] against
    [*.ads.example.com]. *)
Lemma wildcard_prefix_one_dot_witness :
  wildcard_match (normalize (chars "tracker.ads.example.com"))
    (normalize (chars "*.ads.example.com")) = true
  /\ wildcard_match (normalize (chars "tracker.xads.example.com"))
       (normalize (chars "*.ads.example.com")) = true
  /\ dots (chars "a.b.") = 2.
Proof.
  split; [|split; [|reflexivity]].
  - apply (proj1 (wildcard_prefix_one_dot (chars "tracker.") (chars "ads.example.com")
                    ltac:(vm_compute; discriminate))).
    reflexivity.
  - apply (proj1 (wildcard_prefix_one_dot (chars "tracker.x") (chars "ads.example.com")
                    ltac:(vm_compute; discriminate))).
    reflexivity.
Defined.

(** X7: a wildcard owner whose suffix is the root ([*.], [*], [*..]) matches
    exactly the names with one dot inside, such as [google.com]; it matches
    neither [com] nor [www.google.com], so it is no catch-all. *)
Theorem wildcard_root_owner_one_inner_dot q s :
  rstrip_dot (lower s) = [] ->
  wildcard_match (normalize q) (normalize (chars "*." ++ s)) = true
  <-> dots (rstrip_dot q) = 1.
Proof.
  intros Hs. rewrite (wildcard_match_root_suffix q s Hs), length_split_dot.
  rewrite rstrip_dot_lower. fold (dots (lower (rstrip_dot q))). rewrite dots_lower.
  lia.
Qed.

(** [*] against [google.com.], [com] and [www.google.com]. *)
Lemma wildcard_root_owner_one_inner_dot_witness :
  wildcard_match (normalize (chars "google.com.")) (normalize (chars "*")) = true
  /\ dots (rstrip_dot (chars "com")) = 0
  /\ dots (rstrip_dot (chars "www.google.com")) = 2.
Proof.
  split; [|split; reflexivity].
  apply (proj2 (wildcard_root_owner_one_inner_dot (chars "google.com.") []
                  ltac:(reflexivity))).
  reflexivity.
Defined.

Lemma lower_char_code c :
  N_of_ascii (lower_char c)
  = if ((65 <=? N_of_ascii c) && (N_of_ascii c <=? 90))%N
    then (N_of_ascii c + 32)%N else N_of_ascii c.
Proof.
  unfold lower_char.
  destruct ((65 <=? N_of_ascii c) && (N_of_ascii c <=? 90))%N eqn:E; [|reflexivity].
  apply andb_true_iff in E as [E1 E2]. apply N.leb_le in E1, E2.
  apply N_ascii_embedding. lia.
Qed.

Lemma N_of_ascii_inj x y : N_of_ascii x = N_of_ascii y -> x = y.
Proof.
  intros E. rewrite <- (ascii_N_embedding x), <- (ascii_N_embedding y). now rewrite E.
Qed.

Lemma lower_char_eq_variant x y : lower_char x = lower_char y -> case_variant x y.
Proof.
  intros E. apply (f_equal N_of_ascii) in E. rewrite !lower_char_code in E.
  unfold case_variant, is_upper.
  destruct ((65 <=? N_of_ascii x) && (N_of_ascii x <=? 90))%N eqn:Ex;
    destruct ((65 <=? N_of_ascii y) && (N_of_ascii y <=? 90))%N eqn:Ey.
  - left. apply N_of_ascii_inj. lia.
  - apply andb_true_iff in Ex as [E1 E2]. apply N.leb_le in E1, E2.
    right. left. split; [lia | now symmetry].
  - apply andb_true_iff in Ey as [E1 E2]. apply N.leb_le in E1, E2.
    right. right. split; [lia | exact E].
  - left. now apply N_of_ascii_inj.
Qed.

Lemma lower_eq_variants a b : lower a = lower b -> Forall2 case_variant a b.
Proof.
  revert b. induction a as [|x a IH]; intros [|y b] E; try discriminate.
  - constructor.
  - injection E as Ex Et. constructor; [now apply lower_char_eq_variant | now apply IH].
Qed.

(** X8: two names have the same normal form exactly when they differ only
    in letter case and in trailing dots; so the resolver tells apart any two
    names that differ elsewhere. *)
Theorem normalize_eq_iff_same_spelling a b :
  normalize a = normalize b <-> same_spelling a b.
Proof.
  split; [|apply same_spelling_normalize].
  intros E. unfold normalize in E. apply app_inv_tail in E.
  rewrite !rstrip_dot_lower in E.
  destruct (rstrip_dot_split a) as [j Ha], (rstrip_dot_split b) as [k Hb].
  exists (rstrip_dot a), (rstrip_dot b), j, k.
  split; [exact Ha|]. split; [exact Hb|]. now apply lower_eq_variants.
Qed.

(** X9: the normal form of a name is in lower case and ends in exactly one
    dot: taking every trailing dot off it takes one character off; and it is
    the single dot exactly for the names made of dots only. *)
Theorem normalize_shape name :
  normalize name = rstrip_dot (normalize name) ++ [dot]
  /\ lower (normalize name) = normalize name
  /\ (normalize name = [dot] <-> Forall (fun c => c = dot) name).
Proof.
  split; [|split].
  - now rewrite rstrip_dot_normalize.
  - unfold normalize. rewrite lower_app, <- rstrip_dot_lower, lower_idem. reflexivity.
  - unfold normalize. rewrite <- rstrip_dot_nil_iff, rstrip_dot_lower. split.
    + intros E. change [dot] with ([] ++ [dot]) in E at 2. apply app_inv_tail in E.
      destruct (rstrip_dot name); [reflexivity | discriminate].
    + intros ->. reflexivity.
Qed.

End NamesMore.

(** ** The lifecycle controller, call by call *)
Module LifecycleMore.
Import PyStr Py Dnslib Resolver Lifecycle Spec Observed LifecycleFacts.

(** [_start_dns_server] when the listener can be built from the
    configuration: it is bound, kept, and started. *)
Lemma _start_dns_server_built host s section srv :
  config s !! "DNS" = Some section ->
  listener_of host section = Some srv ->
  _start_dns_server host s =
  match listen host (server_port srv) (server_address srv) with
  | Some e => (inl e, s)
  | None =>
      match start_thread host srv with
      | Some e => (inl e, set_dns_server srv s)
      | None => (inr tt, set_state "running" (set_dns_server srv s))
      end
  end.
Proof.
  intros Hsec Hl. unfold listener_of in Hl.
  unfold _start_dns_server, DNSResolver_init, config_get. run_py. rewrite Hsec.
  repeat (case_match; simplify_option_eq); try reflexivity.
Qed.

(** [_start_dns_server] when it cannot: it raises and nothing is changed. *)
Lemma _start_dns_server_not_built host s :
  config s !! "DNS" ≫= listener_of host = None ->
  exists e, _start_dns_server host s = (inl e, s).
Proof.
  intros Hl. unfold listener_of in Hl.
  unfold _start_dns_server, DNSResolver_init, config_get. run_py.
  repeat (case_match; simplify_option_eq); eauto.
Qed.

Lemma start_eq host s :
  start host s =
  if bool_decide (state s = "running")
  then (inl (Exn StateChangeError "DNS server is already started!"), s)
  else match _start_dns_server host s with
       | (inr _, s') => (inr tt, s')
       | (inl e, s') =>
           (inl (Exn StateChangeError
                   ("Encountered an exception when trying to start DNS server! Error message: "
                    +:+ message e)), s')
       end.
Proof.
  unfold start, state_change_error. run_py.
  destruct (bool_decide (state s = "running")); [reflexivity|].
  destruct (_start_dns_server host s) as [[e|[]] s']; reflexivity.
Qed.

Lemma stop_eq host s :
  stop host s =
  if bool_decide (state s = "not running")
  then (inl (Exn StateChangeError "DNS server is already stopped!"), s)
  else match dns_server s with
       | None =>
           (inl (Exn StateChangeError
                   ("Encountered an exception when trying to stop DNS server! Error message: "
                    +:+ "'NoneType' object has no attribute 'stop'")), s)
       | Some srv =>
           match stop_server host srv with
           | Some e =>
               (inl (Exn StateChangeError
                       ("Encountered an exception when trying to stop DNS server! Error message: "
                        +:+ message e)), s)
           | None => (inr tt, set_state "not running" s)
           end
       end.
Proof.
  unfold stop, _stop_dns_server, state_change_error. run_py.
  destruct (bool_decide (state s = "not running")); [reflexivity|].
  destruct (dns_server s) as [srv|]; [|reflexivity].
  destruct (stop_server host srv); reflexivity.
Qed.

Lemma restart_eq host s :
  restart host s =
  if bool_decide (state s = "not running")
  then (inl (Exn StateChangeError "DNS server has not been started!"), s)
  else match _stop_dns_server host s with
       | (inl e, s1) =>
           (inl (Exn StateChangeError
                   ("Encountered an exception when trying to restart DNS server! Error message: "
                    +:+ message e)), s1)
       | (inr _, s1) =>
           match _start_dns_server host s1 with
           | (inr _, s2) => (inr tt, s2)
           | (inl e, s2) =>
               (inl (Exn StateChangeError
                       ("Encountered an exception when trying to restart DNS server! Error message: "
                        +:+ message e)), s2)
           end
       end.
Proof.
  unfold restart, _restart_dns_server, state_change_error. run_py.
  destruct (bool_decide (state s = "not running")); [reflexivity|].
  destruct (_stop_dns_server host s) as [[e|[]] s1]; [reflexivity|].
  destruct (_start_dns_server host s1) as [[e|[]] s2]; reflexivity.
Qed.

(** X10: [start] returns exactly when the server is not running, the
    configuration has its section [DNS] with the six options the start
    reads, both record files are read and parsed, [lport] is an integer, and
    the listener binds and its thread starts; the controller is then running
    with a listener made of the record sets of the two files, the two
    upstream addresses of the configuration, a query count of 0, and that
    port and address. *)
Theorem start_returns_iff host s :
  (fst (start host s) = inr tt
   <-> state s <> "running"
       /\ exists section srv,
            config s !! "DNS" = Some section
            /\ listener_of host section = Some srv
            /\ listen host (server_port srv) (server_address srv) = None
            /\ start_thread host srv = None)
  /\ (forall section srv,
        state s <> "running" ->
        config s !! "DNS" = Some section ->
        listener_of host section = Some srv ->
        listen host (server_port srv) (server_address srv) = None ->
        start_thread host srv = None ->
        start host s
        = (inr tt, {| config := config s; state := "running"; dns_server := Some srv |})).
Proof.
  rewrite start_eq. split.
  - case_bool_decide as Hr; cbn [fst].
    + split; [discriminate | tauto].
    + destruct (config s !! "DNS") as [section|] eqn:Hsec.
      * destruct (listener_of host section) as [srv|] eqn:Hl.
        -- rewrite (_start_dns_server_built host s section srv Hsec Hl).
           destruct (listen host _ _) eqn:Hb; cbn [fst].
           { split; [discriminate|]. intros (_ & sec' & srv' & ? & ? & ? & ?).
             simplify_eq. }
           destruct (start_thread host srv) eqn:Ht; cbn [fst].
           { split; [discriminate|]. intros (_ & sec' & srv' & ? & ? & ? & ?).
             simplify_eq. }
           split; [|reflexivity]. intros _. split; [exact Hr|].
           exists section, srv. auto.
        -- destruct (_start_dns_server_not_built host s) as [e ->];
             [now rewrite Hsec|]. cbn [fst].
           split; [discriminate|]. intros (_ & sec' & srv' & ? & ? & ? & ?).
           simplify_eq.
      * destruct (_start_dns_server_not_built host s) as [e ->];
          [now rewrite Hsec|]. cbn [fst].
        split; [discriminate|]. intros (_ & sec' & srv' & ? & ? & ? & ?).
        simplify_eq.
  - intros section srv Hr Hsec Hl Hb Ht.
    rewrite bool_decide_eq_false_2 by exact Hr.
    rewrite (_start_dns_server_built host s section srv Hsec Hl), Hb, Ht.
    reflexivity.
Qed.

Lemma start_failure host s e :
  fst (start host s) = inl e ->
  exn_class_of e = StateChangeError
  /\ state (snd (start host s)) = state s
  /\ config (snd (start host s)) = config s.
Proof.
  rewrite start_eq. case_bool_decide; cbn [fst snd].
  - intros [= <-]. auto.
  - pose proof (_start_dns_server_post host s) as [Hc Hp].
    destruct (_start_dns_server host s) as [[e'|[]] s']; cbn [fst snd] in *;
      [|discriminate].
    intros [= <-]. tauto.
Qed.

Lemma stop_failure host s e :
  fst (stop host s) = inl e ->
  exn_class_of e = StateChangeError /\ snd (stop host s) = s.
Proof.
  rewrite stop_eq. case_bool_decide; cbn [fst snd].
  - intros [= <-]. auto.
  - destruct (dns_server s) as [srv|]; [|intros [= <-]; auto].
    destruct (stop_server host srv); [intros [= <-]; auto | discriminate].
Qed.

Lemma restart_failure host s e :
  fst (restart host s) = inl e ->
  exn_class_of e = StateChangeError
  /\ (snd (restart host s) = s \/ state (snd (restart host s)) = "not running").
Proof.
  rewrite restart_eq. case_bool_decide; cbn [fst snd].
  - intros [= <-]. auto.
  - pose proof (_stop_dns_server_post host s) as Hs.
    destruct (_stop_dns_server host s) as [[e1|[]] s1]; cbn [fst snd] in *.
    + intros [= <-]. subst s1. auto.
    + destruct Hs as [-> _].
      pose proof (_start_dns_server_post host (set_state "not running" s)) as [_ Hp].
      destruct (_start_dns_server host (set_state "not running" s))
        as [[e2|[]] s2]; cbn [fst snd] in *; [|discriminate].
      intros [= <-]. split; [reflexivity|]. right. tauto.
Qed.

Lemma start_keeps_config host s : config (snd (start host s)) = config s.
Proof.
  rewrite start_eq. case_bool_decide; [reflexivity|].
  pose proof (_start_dns_server_post host s) as [Hc _].
  destruct (_start_dns_server host s) as [[e'|[]] s']; exact Hc.
Qed.

(** X11: whatever goes wrong in [start], [stop] or [restart], the caller
    sees a [StateChangeError] and no other exception; after a failed [start]
    the state and the configuration are what they were; after a failed [stop]
    the whole controller is; after a failed [restart] either the whole
    controller is what it was (the stop half failed) or the server is not
    running (the start half failed). *)
Theorem lifecycle_failures host s e :
  (fst (start host s) = inl e ->
   exn_class_of e = StateChangeError
   /\ state (snd (start host s)) = state s
   /\ config (snd (start host s)) = config s)
  /\ (fst (stop host s) = inl e ->
      exn_class_of e = StateChangeError /\ snd (stop host s) = s)
  /\ (fst (restart host s) = inl e ->
      exn_class_of e = StateChangeError
      /\ (snd (restart host s) = s
          \/ state (snd (restart host s)) = "not running")).
Proof.
  split; [apply start_failure | split; [apply stop_failure | apply restart_failure]].
Qed.

(** X12: a [stop] that returns leaves the server not running and changes
    nothing else: the configuration is kept, and so is the listener object
    with the resolver and the record sets it was started with. *)
Theorem stop_keeps_listener host s :
  fst (stop host s) = inr tt ->
  state (snd (stop host s)) = "not running"
  /\ dns_server (snd (stop host s)) = dns_server s
  /\ config (snd (stop host s)) = config s
  /\ exists srv, dns_server s = Some srv /\ stop_server host srv = None.
Proof.
  rewrite stop_eq. case_bool_decide; [discriminate|].
  destruct (dns_server s) as [srv|] eqn:Hd; [|discriminate].
  destruct (stop_server host srv) eqn:Hs; [discriminate|].
  intros _. cbn [fst snd state dns_server config set_state].
  split; [reflexivity|]. split; [now rewrite Hd|]. split; [reflexivity|].
  exists srv. split; [reflexivity | exact Hs].
Qed.

(** X13: [restart] is [stop] followed by [start]: when [stop] would return,
    [restart] leaves the controller as [start] after [stop] leaves it and
    returns exactly when that [start] returns; when [stop] would raise,
    [restart] raises and changes nothing. *)
Theorem restart_is_stop_then_start host s :
  (fst (stop host s) = inr tt ->
   snd (restart host s) = snd (start host (snd (stop host s)))
   /\ (fst (restart host s) = inr tt
       <-> fst (start host (snd (stop host s))) = inr tt))
  /\ (forall e, fst (stop host s) = inl e ->
        snd (restart host s) = s /\ exists e', fst (restart host s) = inl e').
Proof.
  rewrite stop_eq, restart_eq. unfold _stop_dns_server. run_py.
  case_bool_decide as Hn; cbn [fst snd].
  { split; [discriminate|]. intros err _. eauto. }
  destruct (dns_server s) as [srv|]; cbn [fst snd];
    [|split; [discriminate|]; intros err _; eauto].
  destruct (stop_server host srv) as [e1|]; cbn [fst snd];
    [split; [discriminate|]; intros err _; eauto|].
  split; [|discriminate]. intros _.
  rewrite start_eq. cbn [state set_state].
  rewrite bool_decide_eq_false_2 by discriminate.
  destruct (_start_dns_server host (set_state "not running" s)) as [[e|[]] s2];
    cbn [fst snd]; split; try reflexivity; split; discriminate.
Qed.

Lemma listener_of_missing host section opt :
  In opt options_read -> section !! opt = None -> listener_of host section = None.
Proof.
  unfold options_read, listener_of. cbn [In].
  intros Hin Hm.
  repeat (destruct Hin as [<- | Hin]; [| ]); try contradiction;
    repeat (match goal with
            | |- (?m ≫= _) = None => destruct m eqn:?; cbn
            end);
    try reflexivity; congruence.
Qed.

(** X14: when the configuration has no section [DNS], or the section lacks
    one of the six options a start reads, [start] on a server that is not
    running raises [StateChangeError] and leaves the controller as it was:
    no listener is made. *)
Theorem start_missing_option host s :
  state s <> "running" ->
  (config s !! "DNS" = None
   \/ exists section opt,
        config s !! "DNS" = Some section
        /\ In opt ["primary_upstream"; "backup_upstream"; "zone_file";
                   "override_file"; "lport"; "laddr"]
        /\ section !! opt = None) ->
  exists e, start host s = (inl e, s) /\ exn_class_of e = StateChangeError.
Proof.
  intros Hr Hm. rewrite start_eq, bool_decide_eq_false_2 by exact Hr.
  destruct (_start_dns_server_not_built host s) as [e ->].
  - destruct Hm as [-> | (section & opt & -> & Hin & Hopt)]; [reflexivity|].
    cbn. now apply (listener_of_missing host section opt).
  - eexists. split; reflexivity.
Qed.

Lemma _start_dns_server_without_ttl host s section v :
  config s !! "DNS" = Some section ->
  fst (_start_dns_server host
         (set_config (<["DNS" := <["ttl" := v]> section]> (config s)) s))
    = fst (_start_dns_server host s)
  /\ state (snd (_start_dns_server host
                   (set_config (<["DNS" := <["ttl" := v]> section]> (config s)) s)))
     = state (snd (_start_dns_server host s))
  /\ dns_server (snd (_start_dns_server host
                        (set_config (<["DNS" := <["ttl" := v]> section]> (config s)) s)))
     = dns_server (snd (_start_dns_server host s)).
Proof.
  intros Hsec.
  unfold _start_dns_server, DNSResolver_init, config_get. run_py.
  cbn [config set_config]. rewrite Hsec, lookup_insert_eq.
  rewrite !lookup_insert_ne by discriminate.
  repeat (case_match; simplify_eq; cbn [fst snd state dns_server set_state
                                        set_dns_server set_config]);
    split; try reflexivity; split; reflexivity.
Qed.

Lemma configure_final_state setting value s :
  snd (configure setting value s) =
  if bool_decide (setting ∈ settings)
  then match config s !! "DNS", before_set value with
       | Some section, inr _ =>
           set_config (<["DNS" := <[setting := value]> section]> (config s)) s
       | _, _ => s
       end
  else s.
Proof.
  rewrite configure_eq. case_bool_decide; [|reflexivity].
  destruct (config s !! "DNS"); [|reflexivity].
  destruct (before_set value); reflexivity.
Qed.

(** X15: the setting [ttl], which [configure] accepts, is read by no start:
    with any value written to it, [start] returns or raises the same, and
    leaves the same state and the same listener. *)
Theorem ttl_is_never_read host s v :
  fst (start host (snd (configure "ttl" v s))) = fst (start host s)
  /\ state (snd (start host (snd (configure "ttl" v s)))) = state (snd (start host s))
  /\ dns_server (snd (start host (snd (configure "ttl" v s))))
     = dns_server (snd (start host s)).
Proof.
  assert (Hc : snd (configure "ttl" v s) = s
               \/ exists section,
                    config s !! "DNS" = Some section
                    /\ snd (configure "ttl" v s)
                       = set_config (<["DNS" := <["ttl" := v]> section]> (config s)) s).
  { rewrite configure_final_state.
    case_bool_decide as Hin; [|left; reflexivity].
    destruct (config s !! "DNS") as [section|]; [|left; reflexivity].
    destruct (before_set v); [left; reflexivity|].
    right. exists section. split; reflexivity. }
  destruct Hc as [-> | (section & Hsec & ->)]; [tauto|].
  rewrite !start_eq. cbn [state set_config].
  destruct (_start_dns_server_without_ttl host s section v Hsec) as (Hf & Hst & Hd).
  case_bool_decide; [cbn; tauto|].
  destruct (_start_dns_server host (set_config _ s)) as [[e1|[]] s1];
    destruct (_start_dns_server host s) as [[e2|[]] s2];
    cbn [fst snd] in *; simplify_eq; tauto.
Qed.

(** X16: a setting written by [configure] takes effect at the next
    [restart] and not before: for a value without a percent sign, which the
    configuration parser stores and reads back as it is, right after
    [configure] the listener is the old one, and after a [restart] that
    returns the server runs with the listener built from the section [DNS]
    with that option updated. *)
Theorem configure_takes_effect_at_restart host s setting value section s2 :
  In setting ["zone_file"; "override_file"; "primary_upstream"; "backup_upstream";
              "laddr"; "lport"; "ttl"] ->
  plain value = true ->
  config s !! "DNS" = Some section ->
  restart host (snd (configure setting value s)) = (inr tt, s2) ->
  fst (configure setting value s) = inr tt
  /\ dns_server (snd (configure setting value s)) = dns_server s
  /\ exists srv,
       listener_of host (<[setting := value]> section) = Some srv
       /\ dns_server s2 = Some srv
       /\ state s2 = "running".
Proof.
  intros Hin Hplain Hsec. rewrite configure_eq, Hsec, (plain_accepted _ Hplain).
  rewrite bool_decide_eq_true_2 by (now apply list_elem_of_In). cbn [fst snd].
  set (s1 := set_config _ s). intros Hre. split; [reflexivity|]. split; [reflexivity|].
  rewrite restart_eq in Hre. case_bool_decide; [discriminate|].
  pose proof (_stop_dns_server_post host s1) as Hs.
  destruct (_stop_dns_server host s1) as [[e1|[]] s1']; [discriminate|].
  cbn [fst snd] in Hs. destruct Hs as [-> _].
  assert (Hsec' : config (set_state "not running" s1) !! "DNS"
                  = Some (<[setting := value]> section))
    by apply lookup_insert_eq.
  destruct (listener_of host (<[setting := value]> section)) as [srv|] eqn:Hl.
  - rewrite (_start_dns_server_built _ _ _ _ Hsec' Hl) in Hre.
    destruct (listen host _ _); [discriminate|].
    destruct (start_thread host srv); [discriminate|].
    injection Hre as <-. exists srv. split; [reflexivity|]. split; reflexivity.
  - destruct (_start_dns_server_not_built host (set_state "not running" s1))
      as [e He]; [now rewrite Hsec'|].
    rewrite He in Hre. discriminate.
Qed.

(** X17: of two values written to one setting the last one the
    configuration parser accepts stays: a second write that is accepted
    leaves the controller as if the first had not been made, a second write
    that is refused leaves it as the first left it; and writes to two
    different settings can be made in either order: the controller ends the
    same. *)
Theorem configure_last_write_wins s :
  (forall setting v1 v2,
      snd (configure setting v2 (snd (configure setting v1 s)))
      = match before_set v2 with
        | inr _ => snd (configure setting v2 s)
        | inl _ => snd (configure setting v1 s)
        end)
  /\ (forall setting1 v1 setting2 v2,
        setting1 <> setting2 ->
        snd (configure setting1 v1 (snd (configure setting2 v2 s)))
        = snd (configure setting2 v2 (snd (configure setting1 v1 s)))).
Proof.
  split.
  - intros setting v1 v2. rewrite !configure_final_state.
    case_bool_decide; [|now destruct (before_set v2)].
    destruct (config s !! "DNS") as [section|] eqn:Hsec;
      [|rewrite Hsec; now destruct (before_set v2)].
    destruct (before_set v1) as [e1|?], (before_set v2) as [e2|?];
      rewrite ?Hsec; try reflexivity.
    + cbn [config set_config]. now rewrite lookup_insert_eq.
    + cbn [config set_config]. rewrite lookup_insert_eq.
      unfold set_config. cbn [config state dns_server].
      now rewrite !insert_insert_eq.
  - intros k1 v1 k2 v2 Hne. rewrite !configure_final_state.
    do 2 case_bool_decide; try reflexivity;
      destruct (config s !! "DNS") as [section|] eqn:Hsec;
      rewrite ?Hsec; try reflexivity;
      destruct (before_set v1) as [e1|?], (before_set v2) as [e2|?];
      rewrite ?Hsec; try reflexivity;
      cbn [config set_config]; rewrite ?lookup_insert_eq; try reflexivity.
    unfold set_config. cbn [config state dns_server].
    rewrite !insert_insert_eq. f_equal. f_equal. now apply insert_insert_ne.
Qed.

Import Sample SampleCtl.

(** [start] on the sample host and configuration. *)
Lemma start_returns_iff_witness :
  start host (DNSServer_init cfg)
  = (inr tt,
     {| config := cfg; state := "running";
        dns_server :=
          Some (mkListener
                  (mkResolver [a_record "intranet.local." "10.0.0.5"]
                     [a_record "intranet.local." "10.0.0.5"] "9.9.9.9" "1.1.1.1" 0)
                  53 "0.0.0.0") |}).
Proof.
  apply (proj2 (start_returns_iff host (DNSServer_init cfg)) dns_section).
  - discriminate.
  - apply lookup_singleton_eq.
  - by_running.
  - reflexivity.
  - reflexivity.
Defined.

(** [start] where the port is taken, and [stop] and [restart] before any
    start. *)
Lemma lifecycle_failures_witness :
  state (snd (start host_without_sockets (DNSServer_init cfg))) = "not running"
  /\ snd (stop host (DNSServer_init cfg)) = DNSServer_init cfg
  /\ (snd (restart host (DNSServer_init cfg)) = DNSServer_init cfg
      \/ state (snd (restart host (DNSServer_init cfg))) = "not running").
Proof.
  split; [|split].
  - apply (proj1 (lifecycle_failures host_without_sockets (DNSServer_init cfg)
                    (Exn StateChangeError
                       ("Encountered an exception when trying to start DNS server! Error message: "
                        +:+ "[Errno 98] Address already in use")))).
    by_running.
  - apply (proj1 (proj2 (lifecycle_failures host (DNSServer_init cfg)
                           (Exn StateChangeError "DNS server is already stopped!")))).
    reflexivity.
  - apply (proj2 (proj2 (lifecycle_failures host (DNSServer_init cfg)
                           (Exn StateChangeError "DNS server has not been started!")))).
    reflexivity.
Defined.

(** [stop] after [start] on the sample host. *)
Lemma stop_keeps_listener_witness :
  state (snd (stop host (snd (start host (DNSServer_init cfg))))) = "not running"
  /\ dns_server (snd (stop host (snd (start host (DNSServer_init cfg)))))
     = dns_server (snd (start host (DNSServer_init cfg))).
Proof.
  destruct (stop_keeps_listener host (snd (start host (DNSServer_init cfg))))
    as (Hst & Hd & _); [by_running|].
  split; [exact Hst | exact Hd].
Defined.

(** [restart] after [start] on the sample host. *)
Lemma restart_is_stop_then_start_witness :
  snd (restart host (snd (start host (DNSServer_init cfg))))
  = snd (start host (snd (stop host (snd (start host (DNSServer_init cfg)))))).
Proof.
  apply (proj1 (restart_is_stop_then_start host (snd (start host (DNSServer_init cfg))))).
  by_running.
Defined.

(** A configuration without [lport]. *)
Lemma start_missing_option_witness :
  exists e,
    start host (DNSServer_init {[ "DNS" := delete "lport" dns_section ]})
    = (inl e, DNSServer_init {[ "DNS" := delete "lport" dns_section ]})
    /\ exn_class_of e = StateChangeError.
Proof.
  apply (start_missing_option host
           (DNSServer_init {[ "DNS" := delete "lport" dns_section ]})).
  - discriminate.
  - right. exists (delete "lport" dns_section), "lport".
    split; [apply lookup_singleton_eq|]. split; [cbn; tauto|].
    apply lookup_delete_eq.
Defined.

(** A new primary upstream, then [restart], on the sample host. *)
Lemma configure_takes_effect_at_restart_witness :
  exists srv,
    dns_server (snd (restart host
                       (snd (configure "primary_upstream" "8.8.8.8"
                               (snd (start host (DNSServer_init cfg)))))))
    = Some srv
    /\ primary_upstream (server_resolver srv) = "8.8.8.8".
Proof.
  destruct (configure_takes_effect_at_restart host
              (snd (start host (DNSServer_init cfg)))
              "primary_upstream" "8.8.8.8" dns_section
              (snd (restart host
                      (snd (configure "primary_upstream" "8.8.8.8"
                              (snd (start host (DNSServer_init cfg))))))))
    as (_ & _ & srv & Hl & Hd & _).
  - cbn. tauto.
  - reflexivity.
  - rewrite start_keeps_config. apply lookup_singleton_eq.
  - apply injective_projections; [by_running | reflexivity].
  - exists srv. split; [exact Hd|].
    assert (Hsrv : Some srv
                   = Some (mkListener
                             (mkResolver [a_record "intranet.local." "10.0.0.5"]
                                [a_record "intranet.local." "10.0.0.5"]
                                "8.8.8.8" "1.1.1.1" 0) 53 "0.0.0.0"))
      by (rewrite <- Hl; by_running).
    injection Hsrv as ->. reflexivity.
Defined.

End LifecycleMore.
(** ** The control endpoint *)
Module ApiFacts.
Import PyStr Py Dnslib Resolver Lifecycle Observed LifecycleFacts LifecycleMore Api.

(** A wrapped lifecycle method: the call is logged, the method runs, and a
    [StateChangeError] ends as a second record in the log. *)
Lemma wrapped_eq (m : M DNSServer unit) (called failed : string) s :
  (forall e, fst (m (server s)) = inl e -> exn_class_of e = StateChangeError) ->
  (logger INFO called;;
   try_except_class StateChangeError (inherited m)
     (fun err_msg => logger ERROR (failed +:+ message err_msg));;
   mret tt) s
  = (inr tt,
     {| server := snd (m (server s));
        version := version s;
        log := log s ++ [(INFO, called)]
               ++ match fst (m (server s)) with
                  | inl e => [(ERROR, failed +:+ message e)]
                  | inr _ => []
                  end |}).
Proof.
  intros Hcls. unfold try_except_class, inherited, logger. run_py. cbn [server version log].
  destruct (m (server s)) as [[e|[]] sv'] eqn:Em; cbn [fst snd] in *.
  - rewrite bool_decide_eq_true_2 by now apply Hcls.
    cbn [server version log]. now rewrite <- app_assoc.
  - now rewrite app_nil_r.
Qed.

Lemma Start_returns host s :
  fst (Start host s) = inr tt /\ server (snd (Start host s)) = snd (start host (server s)).
Proof.
  unfold Start. rewrite wrapped_eq; [split; reflexivity|].
  intros e He. now apply (start_failure host (server s) e).
Qed.

Lemma Stop_returns host s :
  fst (Stop host s) = inr tt /\ server (snd (Stop host s)) = snd (stop host (server s)).
Proof.
  unfold Stop. rewrite wrapped_eq; [split; reflexivity|].
  intros e He. now apply (stop_failure host (server s) e).
Qed.

Lemma Restart_returns host s :
  fst (Restart host s) = inr tt
  /\ server (snd (Restart host s)) = snd (restart host (server s)).
Proof.
  unfold Restart. rewrite wrapped_eq; [split; reflexivity|].
  intros e He. now apply (restart_failure host (server s) e).
Qed.

(** X18: [Start], [Stop] and [Restart] of the endpoint never raise: each
    leaves the server as the method of the controller leaves it, writes one
    INFO record for the call, and, exactly when the method raised, one ERROR
    record holding its message; the caller is not told of the failure. *)
Theorem endpoint_lifecycle_never_raises host s :
  Start host s
  = (inr tt,
     {| server := snd (start host (server s));
        version := version s;
        log := log s ++ [(INFO, "Got call on DBus API to Start")]
               ++ match fst (start host (server s)) with
                  | inl e =>
                      [(ERROR,
                        "DBus API encoutered a StateChangeError handling call to Start! Error message:  "
                        +:+ message e)]
                  | inr _ => []
                  end |})
  /\ Stop host s
     = (inr tt,
        {| server := snd (stop host (server s));
           version := version s;
           log := log s ++ [(INFO, "Got call on DBus API to Stop")]
                  ++ match fst (stop host (server s)) with
                     | inl e =>
                         [(ERROR,
                           "DBus API encoutered a StateChangeError handling call to Stop! Error message:  "
                           +:+ message e)]
                     | inr _ => []
                     end |})
  /\ Restart host s
     = (inr tt,
        {| server := snd (restart host (server s));
           version := version s;
           log := log s ++ [(INFO, "Got call on DBus API to Restart")]
                  ++ match fst (restart host (server s)) with
                     | inl e =>
                         [(ERROR,
                           "DBus API encoutered a StateChangeError handling call to Restart! Error message:  "
                           +:+ message e)]
                     | inr _ => []
                     end |}).
Proof.
  split; [|split]; apply wrapped_eq; intros e He.
  - now apply (start_failure host (server s) e).
  - now apply (stop_failure host (server s) e).
  - now apply (restart_failure host (server s) e).
Qed.

(** X19: [Configure] of the endpoint with a name that is no setting does
    not raise: the server is unchanged and the refusal is an ERROR record in
    the log; with a setting, a configuration that has its section [DNS] and
    a value the configuration parser accepts it returns, the controller is
    left as [configure] leaves it and only the call is logged; with a setting
    and no section [DNS] the [KeyError] of the assignment, and with a value
    the parser refuses its [ValueError], is not caught and reaches the
    caller, the server unchanged. *)
Theorem endpoint_configure setting value s :
  (~ In setting ["zone_file"; "override_file"; "primary_upstream";
                 "backup_upstream"; "laddr"; "lport"; "ttl"] ->
   Configure setting value s
   = (inr tt,
      {| server := server s;
         version := version s;
         log := log s
                ++ [(INFO, "Got call on DBus API to Configure with arguments: "
                           +:+ setting +:+ ", " +:+ value);
                    (ERROR,
                     "DBus API encountered a ConfigurationError handling call to Configure! Error message: "
                     +:+ "Invalid setting '" +:+ setting +:+ "'!")] |}))
  /\ (In setting ["zone_file"; "override_file"; "primary_upstream";
                  "backup_upstream"; "laddr"; "lport"; "ttl"] ->
      forall section, config (server s) !! "DNS" = Some section ->
      before_set value = inr value ->
      Configure setting value s
      = (inr tt,
         {| server := snd (configure setting value (server s));
            version := version s;
            log := log s
                   ++ [(INFO, "Got call on DBus API to Configure with arguments: "
                              +:+ setting +:+ ", " +:+ value)] |}))
  /\ (In setting ["zone_file"; "override_file"; "primary_upstream";
                  "backup_upstream"; "laddr"; "lport"; "ttl"] ->
      config (server s) !! "DNS" = None ->
      exists e,
        fst (Configure setting value s) = inl e
        /\ exn_class_of e = KeyError
        /\ server (snd (Configure setting value s)) = server s)
  /\ (In setting ["zone_file"; "override_file"; "primary_upstream";
                  "backup_upstream"; "laddr"; "lport"; "ttl"] ->
      forall section e, config (server s) !! "DNS" = Some section ->
      before_set value = inl e ->
      Configure setting value s
      = (inl e,
         {| server := server s;
            version := version s;
            log := log s
                   ++ [(INFO, "Got call on DBus API to Configure with arguments: "
                              +:+ setting +:+ ", " +:+ value)] |})
      /\ exn_class_of e = ValueError).
Proof.
  fold settings. pose proof (list_elem_of_In settings setting) as Hiff.
  unfold Configure, try_except_class, inherited, logger. run_py.
  cbn [server version log]. rewrite configure_eq.
  split; [|split; [|split]].
  - intros Hn. rewrite bool_decide_eq_false_2 by tauto.
    cbn [exn_class_of message]. rewrite bool_decide_eq_true_2 by reflexivity.
    cbn [server version log]. now rewrite <- app_assoc.
  - intros Hin section Hsec Hb. rewrite bool_decide_eq_true_2 by tauto.
    rewrite Hsec, Hb. reflexivity.
  - intros Hin Hsec. rewrite bool_decide_eq_true_2 by tauto.
    rewrite Hsec. cbn [exn_class_of key_error].
    rewrite bool_decide_eq_false_2 by discriminate.
    eexists. cbn [fst snd server]. split; [reflexivity|]. split; reflexivity.
  - intros Hin section e Hsec Hb. rewrite bool_decide_eq_true_2 by tauto.
    rewrite Hsec, Hb. pose proof (before_set_class _ _ Hb) as Hc. rewrite Hc.
    rewrite bool_decide_eq_false_2 by discriminate. split; reflexivity.
Qed.

Import Sample SampleCtl.

(** [Configure("bogus", "x")], [Configure("ttl", "300")],
    [Configure("ttl", "300")] on a configuration that is empty, and
    [Configure("ttl", "50%")]. *)
Lemma endpoint_configure_witness :
  server (snd (Configure "bogus" "x" (DNSServerService_init cfg))) = DNSServer_init cfg
  /\ fst (Configure "ttl" "300" (DNSServerService_init cfg)) = inr tt
  /\ (exists e, fst (Configure "ttl" "300" (DNSServerService_init ∅)) = inl e
                /\ exn_class_of e = KeyError)
  /\ fst (Configure "ttl" "50%" (DNSServerService_init cfg))
     = inl (Exn ValueError "invalid interpolation syntax in '50%' at position 2").
Proof.
  destruct (endpoint_configure "bogus" "x" (DNSServerService_init cfg)) as (H1 & _).
  destruct (endpoint_configure "ttl" "300" (DNSServerService_init cfg)) as (_ & H2 & _).
  destruct (endpoint_configure "ttl" "300" (DNSServerService_init ∅)) as (_ & _ & H3 & _).
  destruct (endpoint_configure "ttl" "50%" (DNSServerService_init cfg))
    as (_ & _ & _ & H4).
  split; [|split; [|split]].
  - rewrite H1; [reflexivity|]. cbn [In]. intros Hin.
    repeat (destruct Hin as [Hin | Hin]; [discriminate Hin|]). exact Hin.
  - rewrite (H2 ltac:(cbn; tauto) dns_section); [reflexivity| |reflexivity].
    apply lookup_singleton_eq.
  - destruct H3 as (e & He & Hc & _); [cbn; tauto | reflexivity |].
    exists e. split; [exact He | exact Hc].
  - destruct (H4 ltac:(cbn; tauto) dns_section
                (Exn ValueError "invalid interpolation syntax in '50%' at position 2"))
      as [He _]; [apply lookup_singleton_eq | reflexivity |].
    now rewrite He.
Defined.

End ApiFacts.

(** ** The command line client *)
Module CtlFacts.
Import Py Lifecycle Api Ctl Observed Sample LifecycleMore ApiFacts.

Ltac run_p :=
  cbv beta delta [mbind P_bind mret P_ret halt_with print sys_exit set_debug
                  operations_append index getitem] iota.

Section Loops.
Context {S : Type}.

Lemma for_each_app {A} (l1 l2 : list A) (body : A -> P S unit) p :
  for_each (l1 ++ l2) body p =
  match for_each l1 body p with
  | (inr _, p') => for_each l2 body p'
  | (inl h, p') => (inl h, p')
  end.
Proof.
  revert p. induction l1 as [|x l1 IH]; intros p; [reflexivity|].
  cbn [for_each app]. run_p. destruct (body x p) as [[h|[]] p']; [reflexivity | apply IH].
Qed.

Lemma index_of_Some args arg : In arg args -> exists i, index_of args arg = Some i.
Proof.
  induction args as [|y l IH]; [contradiction|]. intros Hin. cbn [index_of].
  case_bool_decide as E; [now exists 0|].
  destruct Hin as [-> | Hin]; [contradiction|].
  destruct (IH Hin) as [i ->]. now exists (Datatypes.S i).
Qed.

Lemma index_of_lookup args arg i :
  index_of args arg = Some i ->
  args !! i = Some arg /\ forall j, j < i -> args !! j <> Some arg.
Proof.
  revert i. induction args as [|y l IH]; intros i; [discriminate|]. cbn [index_of].
  case_bool_decide as E.
  - intros [= <-]. subst y. split; [reflexivity | lia].
  - destruct (index_of l arg) as [k|]; [|discriminate]. intros [= <-].
    destruct (IH k eq_refl) as [Hk Hlt]. split; [exact Hk|].
    intros [|j] Hj; cbn; [congruence | apply Hlt; lia].
Qed.

(** A word that is no command is passed over. *)
Lemma arg_step_other args arg (p : Process S) :
  arg <> "start" -> arg <> "stop" -> arg <> "restart" -> arg <> "configure" ->
  arg_step args arg p = (inr tt, p).
Proof.
  intros H1 H2 H3 H4. unfold arg_step.
  rewrite !bool_decide_eq_false_2 by assumption. reflexivity.
Qed.

(** A plain command that is not followed by [help] where it first stands
    is put on the list. *)
Lemma arg_step_plain args arg i (p : Process S) :
  arg ∈ plain_commands ->
  index_of args arg = Some i ->
  args !! (i + 1) <> Some "help" ->
  arg_step args arg p = (inr tt, queued [plain_op arg] p).
Proof.
  intros Hc Hi Hn. unfold arg_step, plain_commands in Hc |- *.
  rewrite !elem_of_cons, elem_of_nil in Hc.
  destruct Hc as [-> | [-> | [-> | []]]].
  all: cbn [bool_decide decide_rel]; rewrite ?bool_decide_eq_true_2 by reflexivity;
    rewrite ?bool_decide_eq_false_2 by discriminate;
    rewrite ?bool_decide_eq_true_2 by reflexivity.
  all: run_p; rewrite Hi; run_p.
  all: case_bool_decide as Hlt; [|reflexivity].
  all: destruct (args !! (i + 1)) as [x|] eqn:Hx;
    [|apply lookup_ge_None in Hx; lia].
  all: rewrite bool_decide_eq_false_2 by congruence; reflexivity.
Qed.

Lemma queued_nil (p : Process S) : queued [] p = p.
Proof. destruct p. unfold queued. cbn. now rewrite app_nil_r. Qed.

Lemma queued_queued ops1 ops2 (p : Process S) :
  queued ops2 (queued ops1 p) = queued (ops1 ++ ops2) p.
Proof. unfold queued. cbn. now rewrite app_assoc. Qed.

Lemma not_plain_command arg :
  is_plain_command arg = false ->
  arg <> "start" /\ arg <> "stop" /\ arg <> "restart".
Proof.
  unfold is_plain_command, plain_commands. intros Hn.
  apply bool_decide_eq_false_1 in Hn. rewrite !elem_of_cons in Hn.
  repeat split; intros ->; apply Hn; tauto.
Qed.

(** The loop over words none of which is [configure] or is followed by
    [help] where it first stands: the plain commands are put on the list in
    their order, nothing is printed, the loop runs to its end. *)
Lemma for_each_quiet (l args : list string) (p : Process S) :
  (forall a, In a l ->
     In a args /\ a <> "configure"
     /\ forall i, index_of args a = Some i -> args !! (i + 1) <> Some "help") ->
  for_each l (arg_step args) p
  = (inr tt, queued (map plain_op (List.filter is_plain_command l)) p).
Proof.
  revert p. induction l as [|a l IH]; intros p Hl.
  - cbn. now rewrite queued_nil.
  - destruct (Hl a (or_introl eq_refl)) as (Hin & Hnc & Hnext).
    cbn [for_each List.filter]. run_p.
    destruct (is_plain_command a) eqn:Hp.
    + destruct (index_of_Some args a Hin) as [i Hi].
      rewrite (arg_step_plain args a i p); [|now apply bool_decide_eq_true_1 in Hp
                                           |exact Hi|now apply Hnext].
      rewrite IH by (intros b Hb; apply Hl; now right).
      now rewrite queued_queued.
    + destruct (not_plain_command a Hp) as (H1 & H2 & H3).
      rewrite arg_step_other by assumption.
      apply IH. intros b Hb. apply Hl. now right.
Qed.

(** X20: on a command line without [help] and without [configure], the
    words [start], [stop] and [restart] are put on the list of operations
    in the order and as many times as they stand; every other word is passed
    over without a message; nothing is printed and the script goes on to
    [main]. *)
Theorem plain_commands_are_queued_in_order (args : list string) (p : Process S) :
  Forall (fun a => a <> "help" /\ a <> "configure") args ->
  for_each args (arg_step args) p
  = (inr tt, queued (map plain_op (List.filter is_plain_command args)) p).
Proof.
  intros Hq. apply for_each_quiet. intros a Hin.
  rewrite Forall_forall in Hq. split; [exact Hin|]. split.
  - apply (Hq a). now apply list_elem_of_In.
  - intros i _ Hnext. apply list_elem_of_lookup_2 in Hnext.
    now apply Hq in Hnext.
Qed.

Lemma setting_is_no_command setting :
  setting ∈ settings ->
  setting <> "help" /\ setting <> "configure" /\ is_plain_command setting = false.
Proof.
  unfold settings, is_plain_command, plain_commands.
  rewrite !elem_of_cons, elem_of_nil.
  intros Hin. repeat (destruct Hin as [-> | Hin]; [now repeat split|]).
  contradiction.
Qed.

(** The step for [configure] when a setting and a value follow where
    [configure] first stands. *)
Lemma arg_step_configure args i setting value (p : Process S) :
  index_of args "configure" = Some i ->
  args !! (i + 1) = Some setting -> setting ∈ settings ->
  args !! (i + 2) = Some value ->
  arg_step args "configure" p = (inr tt, queued [configure_op setting value] p).
Proof.
  intros Hi Hs Hin Hv. unfold arg_step. cbn [bool_decide decide_rel].
  rewrite !bool_decide_eq_false_2 by discriminate.
  rewrite bool_decide_eq_true_2 by reflexivity. run_p. rewrite Hi. run_p.
  pose proof (lookup_lt_Some _ _ _ Hv) as Hlt.
  rewrite (bool_decide_eq_true_2 (Z.of_nat i + 2 <= _)%Z) by lia.
  cbn [orb]. rewrite Hs.
  rewrite (bool_decide_eq_false_2 (setting = "help"))
    by (apply (setting_is_no_command setting Hin)).
  rewrite bool_decide_eq_true_2 by exact Hin.
  rewrite Hv. reflexivity.
Qed.

(** The step for [configure] when only a setting follows. *)
Lemma arg_step_configure_no_value args i setting (p : Process S) :
  index_of args "configure" = Some i ->
  args !! (i + 1) = Some setting -> setting ∈ settings ->
  length args = i + 2 ->
  arg_step args "configure" p = (inl IndexError, p).
Proof.
  intros Hi Hs Hin Hlen. unfold arg_step. cbn [bool_decide decide_rel].
  rewrite !bool_decide_eq_false_2 by discriminate.
  rewrite bool_decide_eq_true_2 by reflexivity. run_p. rewrite Hi. run_p.
  rewrite (bool_decide_eq_false_2 (Z.of_nat i + 2 <= _)%Z) by lia.
  rewrite (bool_decide_eq_true_2 (Z.of_nat i + 1 = _)%Z) by lia.
  cbn [orb]. rewrite Hs.
  rewrite (bool_decide_eq_false_2 (setting = "help"))
    by (apply (setting_is_no_command setting Hin)).
  rewrite bool_decide_eq_true_2 by exact Hin.
  rewrite (proj2 (lookup_ge_None args (i + 2))) by lia. reflexivity.
Qed.

Lemma index_of_app_first pre x rest :
  ~ In x pre -> index_of (pre ++ x :: rest) x = Some (length pre).
Proof.
  induction pre as [|y pre IH]; intros Hn; cbn [index_of app length].
  - now rewrite bool_decide_eq_true_2.
  - rewrite bool_decide_eq_false_2 by (intros ->; apply Hn; now left).
    rewrite IH by (intros Hin; apply Hn; now right). reflexivity.
Qed.

(** X21: [configure SETTING] at the end of the command line, with a setting
    of the seven and no value after it, ends the script with an
    [IndexError]: the test that lets [configure help] through also lets the
    setting through, and the value is then read past the end of the list.
    The commands before it were put on the list, and [main] is not
    reached. *)
Theorem configure_without_value_raises (pre : list string) setting (p : Process S) :
  Forall (fun a => a <> "help" /\ a <> "configure") pre ->
  In setting ["zone_file"; "override_file"; "primary_upstream"; "backup_upstream";
              "laddr"; "lport"; "ttl"] ->
  for_each (pre ++ ["configure"; setting])
    (arg_step (pre ++ ["configure"; setting])) p
  = (inl IndexError, queued (map plain_op (List.filter is_plain_command pre)) p).
Proof.
  intros Hpre Hin. fold settings in Hin. apply list_elem_of_In in Hin.
  destruct (setting_is_no_command setting Hin) as (Hh & _ & _).
  set (args := pre ++ ["configure"; setting]).
  assert (Hall : Forall (fun a => a <> "help") args).
  { apply Forall_app. split.
    - eapply Forall_impl; [exact Hpre|]. cbn. tauto.
    - repeat constructor; [discriminate | exact Hh]. }
  unfold args at 1. rewrite for_each_app, (for_each_quiet pre args).
  - cbn [for_each]. run_p.
    rewrite (arg_step_configure_no_value args (length pre) setting); [reflexivity | | | |].
    + apply index_of_app_first. intros Hc. rewrite Forall_forall in Hpre.
      apply list_elem_of_In, Hpre in Hc. tauto.
    + unfold args. rewrite lookup_app_r by lia.
      now replace (length pre + 1 - length pre) with 1 by lia.
    + exact Hin.
    + unfold args. rewrite length_app. cbn. lia.
  - intros a Ha. rewrite Forall_forall in Hpre. split; [apply in_or_app; now left|].
    split; [apply (Hpre a); now apply list_elem_of_In|].
    intros i _ Hnext. apply list_elem_of_lookup_2 in Hnext.
    rewrite Forall_forall in Hall. now apply Hall in Hnext.
Qed.

(** X22: the value of a [configure] is looked at again as a word of its
    own: in [configure SETTING VALUE] with a value that is [start], [stop] or
    [restart], the setting is written with that value and the command of that
    name is run after it. *)
Theorem command_word_as_value_is_also_run setting value (p : Process S) :
  In setting ["zone_file"; "override_file"; "primary_upstream"; "backup_upstream";
              "laddr"; "lport"; "ttl"] ->
  In value ["start"; "stop"; "restart"] ->
  for_each ["configure"; setting; value] (arg_step ["configure"; setting; value]) p
  = (inr tt, queued [configure_op setting value; plain_op value] p).
Proof.
  intros Hs Hv. fold settings in Hs. fold plain_commands in Hv.
  apply list_elem_of_In in Hs, Hv.
  destruct (setting_is_no_command setting Hs) as (Hh & Hc & Hp).
  destruct (not_plain_command setting Hp) as (H1 & H2 & H3).
  assert (Hvc : value <> "configure").
  { intros ->. unfold plain_commands in Hv.
    rewrite !elem_of_cons, elem_of_nil in Hv. intuition discriminate. }
  assert (Hvs : setting <> value).
  { intros ->. unfold is_plain_command in Hp.
    apply bool_decide_eq_false_1 in Hp. contradiction. }
  cbn [for_each]. run_p.
  rewrite (arg_step_configure _ 0 setting value); [| reflexivity | reflexivity
                                                  | exact Hs | reflexivity].
  rewrite arg_step_other by assumption.
  rewrite (arg_step_plain _ value 2); [| exact Hv | | discriminate].
  - now rewrite queued_queued.
  - cbn [index_of]. rewrite !bool_decide_eq_false_2 by congruence.
    rewrite bool_decide_eq_true_2 by reflexivity. reflexivity.
Qed.

Lemma repeat_snoc {A} (x : A) n : repeat x n ++ [x] = x :: repeat x n.
Proof. induction n as [|n IH]; cbn; [reflexivity | now rewrite IH]. Qed.

(** X23: every [configure] on a command line reads the arguments of the
    first one: where [configure SETTING VALUE] stands first and no later word
    is [start], [stop] or [restart], the operations are that one write, once
    for each [configure] on the line; a setting and a value given to a later
    [configure] are never written. *)
Theorem every_configure_repeats_the_first setting value rest (p : Process S) :
  In setting ["zone_file"; "override_file"; "primary_upstream"; "backup_upstream";
              "laddr"; "lport"; "ttl"] ->
  Forall (fun a => is_plain_command a = false) (value :: rest) ->
  for_each ("configure" :: setting :: value :: rest)
    (arg_step ("configure" :: setting :: value :: rest)) p
  = (inr tt,
     queued (repeat (configure_op setting value)
               (length (List.filter (fun a => bool_decide (a = "configure"))
                          ("configure" :: setting :: value :: rest)))) p).
Proof.
  intros Hs Hrest. fold settings in Hs. apply list_elem_of_In in Hs.
  destruct (setting_is_no_command setting Hs) as (_ & _ & Hp).
  set (args := "configure" :: setting :: value :: rest).
  assert (Hl : forall l (q : Process S),
            Forall (fun a => is_plain_command a = false) l ->
            for_each l (arg_step args) q
            = (inr tt,
               queued (repeat (configure_op setting value)
                         (length (List.filter (fun a => bool_decide (a = "configure")) l)))
                 q)).
  { induction l as [|a l IH]; intros q Hq.
    - cbn. now rewrite queued_nil.
    - apply Forall_cons in Hq as [Ha Hq]. cbn [for_each List.filter]. run_p.
      case_bool_decide as Hc.
      + subst a. rewrite (arg_step_configure args 0 setting value);
          [| reflexivity | reflexivity | exact Hs | reflexivity].
        rewrite IH by exact Hq. rewrite queued_queued. reflexivity.
      + destruct (not_plain_command a Ha) as (H1 & H2 & H3).
        rewrite arg_step_other by assumption. now apply IH. }
  apply Hl. constructor; [reflexivity|]. constructor; assumption.
Qed.

(** X24: [help] after a command is treated in two ways: [start help]
    prints the help of [start] and ends the script with status 0, whatever
    follows and whatever stood before on the list, so nothing is run; [stop
    help] and [restart help] print their help and then put the command on the
    list all the same, so the server is stopped or restarted. *)
Theorem help_after_a_command rest (p : Process S) :
  for_each ("start" :: "help" :: rest) (arg_step ("start" :: "help" :: rest)) p
  = (inl (SystemExit 0),
     printed ["Start the DNS server"; "USAGE:"; tab +:+ "dnsserverctl start"] p)
  /\ for_each ["stop"; "help"] (arg_step ["stop"; "help"]) p
     = (inr tt,
        queued [plain_op "stop"]
          (printed ["Stop the DNS server"; "USAGE:"; tab +:+ "dnsserverctl stop"] p))
  /\ for_each ["restart"; "help"] (arg_step ["restart"; "help"]) p
     = (inr tt,
        queued [plain_op "restart"]
          (printed ["Restart the DNS server"; "USAGE:"; tab +:+ "dnsserverctl restart"]
             p)).
Proof.
  split; [|split].
  - cbn [for_each]. unfold arg_step. run_p. cbn [bool_decide decide_rel index_of].
    rewrite !bool_decide_eq_true_2 by reflexivity. run_p. cbn [length].
    rewrite bool_decide_eq_true_2 by lia. cbn [lookup list_lookup Nat.add].
    rewrite bool_decide_eq_true_2 by reflexivity.
    unfold printed. cbn [debug operations stdout remote].
    rewrite <- ?app_assoc. reflexivity.
  - unfold printed, queued. cbn [debug operations stdout remote].
    replace (stdout p ++ ["Stop the DNS server"; "USAGE:"; tab +:+ "dnsserverctl stop"])
      with (((stdout p ++ ["Stop the DNS server"]) ++ ["USAGE:"])
            ++ [tab +:+ "dnsserverctl stop"])
      by now rewrite <- !app_assoc.
    by_running.
  - unfold printed, queued. cbn [debug operations stdout remote].
    replace (stdout p ++ ["Restart the DNS server"; "USAGE:";
                          tab +:+ "dnsserverctl restart"])
      with (((stdout p ++ ["Restart the DNS server"]) ++ ["USAGE:"])
            ++ [tab +:+ "dnsserverctl restart"])
      by now rewrite <- !app_assoc.
    by_running.
Qed.

Lemma well_formed_plain c : c ∈ plain_commands -> well_formed (plain_op c).
Proof. intros Hc. left. now split. Qed.

Lemma well_formed_configure setting value :
  setting ∈ settings -> well_formed (configure_op setting value).
Proof. intros Hs. right. split; [reflexivity|]. now exists setting, value. Qed.

Lemma start_is_plain : "start" ∈ plain_commands.
Proof. apply list_elem_of_here. Qed.

Lemma stop_is_plain : "stop" ∈ plain_commands.
Proof. apply list_elem_of_further, list_elem_of_here. Qed.

Lemma restart_is_plain : "restart" ∈ plain_commands.
Proof. do 2 apply list_elem_of_further. apply list_elem_of_here. Qed.

Lemma tame_ret {A} (a : A) : tame (mret a : P S A).
Proof. intros p Hwf. split; [exact Hwf | discriminate]. Qed.

Lemma tame_bind {A B} (m : P S A) (k : A -> P S B) :
  tame m -> (forall a, tame (k a)) -> tame (m ≫= k).
Proof.
  intros Hm Hk p Hwf. destruct (Hm p Hwf) as [Hs Hh].
  unfold mbind, P_bind. destruct (m p) as [[h|a] p']; cbn [fst snd] in *.
  - split; [exact Hs | intros h' [= <-]; now apply Hh].
  - now apply Hk.
Qed.

Lemma tame_getitem {B} (l : list string) i (k : string -> P S B) :
  (forall x, l !! i = Some x -> tame (k x)) -> tame (getitem l i ≫= k).
Proof.
  intros Hk p Hwf. unfold mbind, P_bind, getitem.
  destruct (l !! i) as [x|]; cbn [fst snd].
  - now apply Hk.
  - split; [exact Hwf | intros h [= <-]; tauto].
Qed.

Lemma tame_print line : tame (print line : P S unit).
Proof. intros p Hwf. split; [exact Hwf | discriminate]. Qed.

Lemma tame_exit {A} code : code = 0%Z \/ code = 1%Z -> tame (sys_exit code : P S A).
Proof.
  intros Hc p Hwf. split; [exact Hwf|]. intros h [= <-].
  destruct Hc as [-> | ->]; tauto.
Qed.

Lemma tame_append op : well_formed op -> tame (operations_append op : P S unit).
Proof.
  intros Hop p Hwf. split; [|discriminate]. cbn.
  apply Forall_app. split; [exact Hwf | now constructor].
Qed.

Ltac tame_if :=
  match goal with
  | |- tame (if ?b then _ else _) => destruct b
  end.

Ltac tame_step :=
  first [ apply tame_ret
        | apply tame_print
        | apply tame_exit; tauto
        | apply tame_bind; [|intros ?]
        | match goal with
          | |- tame (if ?b then _ else _) => destruct b eqn:?
          end ].

(** One step of the loop over the words is tame. *)
Lemma arg_step_tame args a : In a args -> tame (arg_step args a : P S unit).
Proof.
  intros Hin. destruct (index_of_Some args a Hin) as [i Hi].
  unfold arg_step, index. rewrite Hi.
  destruct (bool_decide (a = "start")) eqn:E1.
  { apply tame_bind; [apply tame_ret|]. intros j.
    apply tame_bind;
      [|intros _; apply tame_append, well_formed_plain, start_is_plain].
    tame_if; [|apply tame_ret].
    apply tame_getitem. intros x _. repeat tame_step. }
  destruct (bool_decide (a = "stop")) eqn:E2.
  { apply tame_bind; [apply tame_ret|]. intros j.
    apply tame_bind;
      [|intros _; apply tame_append, well_formed_plain, stop_is_plain].
    tame_if; [|apply tame_ret].
    apply tame_getitem. intros x _. repeat tame_step. }
  destruct (bool_decide (a = "restart")) eqn:E3.
  { apply tame_bind; [apply tame_ret|]. intros j.
    apply tame_bind;
      [|intros _; apply tame_append, well_formed_plain, restart_is_plain].
    tame_if; [|apply tame_ret].
    apply tame_getitem. intros x _. repeat tame_step. }
  destruct (bool_decide (a = "configure")) eqn:E4; [|apply tame_ret].
  apply tame_bind; [apply tame_ret|]. intros j.
  tame_if; [|repeat tame_step].
  apply tame_getitem. intros next Hnext.
  tame_if; [repeat tame_step|].
  destruct (bool_decide (next ∈ settings)) eqn:Es; [|repeat tame_step].
  apply bool_decide_eq_true_1 in Es.
  apply tame_getitem. intros setting Hsetting.
  apply tame_getitem. intros value _.
  apply tame_append, well_formed_configure. congruence.
Qed.

Lemma arg_loop_tame args l :
  (forall a, In a l -> In a args) -> tame (for_each l (arg_step args) : P S unit).
Proof.
  induction l as [|a l IH]; intros Hl; cbn [for_each]; [apply tame_ret|].
  apply tame_bind; [apply arg_step_tame, Hl; now left|].
  intros _. apply IH. intros b Hb. apply Hl. now right.
Qed.

(** X25: the operations the script puts on its list are well formed,
    whatever the command line: each is [start], [stop] or [restart] without
    arguments, or [configure] with a setting of the seven and a value; so
    [main] never meets an operation it does not know, and the endpoint is
    never asked for a setting it would refuse.  If the loop over the words
    ends the script, it is by [sys.exit] with status 0 or 1 or by the
    [IndexError] of a missing value. *)
Theorem queued_operations_are_well_formed (args : list string) (p : Process S) :
  Forall well_formed (operations p) ->
  Forall well_formed (operations (snd (for_each args (arg_step args) p)))
  /\ (forall h, fst (for_each args (arg_step args) p) = inl h ->
        h = SystemExit 0 \/ h = SystemExit 1 \/ h = IndexError).
Proof. apply (arg_loop_tame args args). auto. Qed.

Lemma opt_step_tame o : tame (opt_step o : P S unit).
Proof.
  unfold opt_step. repeat tame_step.
Qed.

Lemma opt_loop_tame opts : tame (for_each opts opt_step : P S unit).
Proof.
  induction opts as [|o l IH]; cbn [for_each]; [apply tame_ret|].
  apply tame_bind; [apply opt_step_tame | intros _; exact IH].
Qed.

End Loops.

Section WithBus.
Context {S : Type} `{Bus S}.

Lemma guarded_returns (call : M S unit) (p : Process S) :
  exists p', guarded call p = (inr tt, p').
Proof. unfold guarded. destruct (call (remote p)) as [[e|u] s']; eauto. Qed.

Lemma main_step_returns d op (p : Process S) :
  well_formed op -> exists p', main_step d op p = (inr tt, p').
Proof.
  intros Hwf. unfold main_step, client_start, client_stop, client_restart,
    client_configure. run_p.
  destruct op as [name arguments]. unfold well_formed in Hwf. cbn [fst snd] in *.
  destruct Hwf as [[Hp _] | (-> & setting & value & -> & _)].
  - unfold plain_commands in Hp. rewrite !elem_of_cons, elem_of_nil in Hp.
    destruct Hp as [-> | [-> | [-> | []]]];
      rewrite ?bool_decide_eq_true_2 by reflexivity;
      rewrite ?bool_decide_eq_false_2 by discriminate;
      rewrite ?bool_decide_eq_true_2 by reflexivity;
      destruct d; apply guarded_returns.
  - rewrite !bool_decide_eq_false_2 by discriminate.
    rewrite bool_decide_eq_true_2 by reflexivity.
    cbn [lookup list_lookup]. destruct d; apply guarded_returns.
Qed.

Lemma main_loop_returns d ops (p : Process S) :
  Forall well_formed ops -> exists p', for_each ops (main_step d) p = (inr tt, p').
Proof.
  revert p. induction ops as [|op ops IH]; intros p Hwf; [now exists p|].
  apply Forall_cons in Hwf as [Hop Hops]. cbn [for_each]. run_p.
  destruct (main_step_returns d op p Hop) as [p1 ->]. now apply IH.
Qed.

(** X26: the script can end early in four ways only: [sys.exit(0)] after a
    help or version text, [sys.exit(1)] after a usage error, the
    [IndexError] of a [configure] without a value, and the exception raised
    while connecting to the bus; once connected, [main] runs every operation
    to the end: a call that fails on the bus does not end the script, and
    the exception [main] has for an unknown operation is never raised. *)
Theorem script_ends opts args (p : Process S) h :
  fst (script (inr (opts, args)) p) = inl h ->
  h = SystemExit 0 \/ h = SystemExit 1 \/ h = IndexError
  \/ exists e, connect = Some e /\ h = Uncaught e.
Proof.
  unfold script. run_p. unfold init_variables.
  set (p0 := mkProcess false [] (stdout p) (remote p)).
  assert (Hwf0 : Forall well_formed (operations p0)) by constructor.
  destruct (opt_loop_tame opts p0 Hwf0) as [Hwf1 Hh1].
  destruct (for_each opts opt_step p0) as [[h1|[]] p1]; cbn [fst snd] in *.
  { intros [= <-]. destruct (Hh1 h1 eq_refl) as [-> | [-> | ->]]; tauto. }
  destruct (arg_loop_tame args args (fun a Ha => Ha) p1 Hwf1) as [Hwf2 Hh2].
  destruct (for_each args (arg_step args) p1) as [[h2|[]] p2]; cbn [fst snd] in *.
  { intros [= <-]. destruct (Hh2 h2 eq_refl) as [-> | [-> | ->]]; tauto. }
  unfold main, DBusAPIClient. run_p.
  destruct connect as [e|] eqn:Ec.
  { intros [= <-]. right. right. right. now exists e. }
  destruct (debug p2).
  - destruct (main_loop_returns true (operations p2)
                (mkProcess (debug p2) (operations p2)
                   (stdout p2 ++ ["[DEBUG] Connected to system bus '"
                                  +:+ "com.dnsserver.DNSServer" +:+ "' at path '"
                                  +:+ "/com/dnsserver/DNSServer" +:+ "'"])
                   (remote p2)) Hwf2) as [p3 Hp3].
    unfold print. cbn [fst snd debug operations stdout remote] in *.
    rewrite Hp3. discriminate.
  - destruct (main_loop_returns false (operations p2) p2 Hwf2) as [p3 Hp3].
    rewrite Hp3. discriminate.
Qed.

End WithBus.

(** X27: through the bus, a [start], [stop] or [restart] that fails looks
    to the operator like one that worked: the endpoint keeps the
    [StateChangeError] to itself, so the client, run without [-d], prints
    nothing and goes on, and the service is left as [Start], [Stop] or
    [Restart] leave it. *)
Theorem lifecycle_failures_are_silent host repr str connect
    (p : Process DNSServerService) :
  @main_step _ (Service.published host repr str connect) false (plain_op "start") p
  = (inr tt, mkProcess (debug p) (operations p) (stdout p)
               (snd (Start host (remote p))))
  /\ @main_step _ (Service.published host repr str connect) false (plain_op "stop") p
     = (inr tt, mkProcess (debug p) (operations p) (stdout p)
                  (snd (Stop host (remote p))))
  /\ @main_step _ (Service.published host repr str connect) false (plain_op "restart") p
     = (inr tt, mkProcess (debug p) (operations p) (stdout p)
                  (snd (Restart host (remote p))))
  /\ server (snd (Start host (remote p))) = snd (start host (server (remote p)))
  /\ server (snd (Stop host (remote p))) = snd (stop host (server (remote p)))
  /\ server (snd (Restart host (remote p))) = snd (restart host (server (remote p))).
Proof.
  destruct (Start_returns host (remote p)) as [Hs1 Hs2].
  destruct (Stop_returns host (remote p)) as [Ht1 Ht2].
  destruct (Restart_returns host (remote p)) as [Hr1 Hr2].
  unfold main_step, client_start, client_stop, client_restart, guarded, plain_op.
  run_p. cbn [fst snd api_Start api_Stop api_Restart Service.published].
  rewrite (bool_decide_eq_true_2 ("start" = "start")) by reflexivity.
  rewrite (bool_decide_eq_true_2 ("stop" = "stop")) by reflexivity.
  rewrite (bool_decide_eq_true_2 ("restart" = "restart")) by reflexivity.
  rewrite (bool_decide_eq_false_2 ("stop" = "start")) by discriminate.
  rewrite (bool_decide_eq_false_2 ("restart" = "start")) by discriminate.
  rewrite (bool_decide_eq_false_2 ("restart" = "stop")) by discriminate.
  destruct (Start host (remote p)) as [[e1|[]] s1]; [discriminate|].
  destruct (Stop host (remote p)) as [[e2|[]] s2]; [discriminate|].
  destruct (Restart host (remote p)) as [[e3|[]] s3]; [discriminate|].
  cbn [fst snd] in *.
  split; [reflexivity|]. split; [reflexivity|]. split; [reflexivity|].
  split; [exact Hs2|]. split; [exact Ht2 | exact Hr2].
Qed.

Import SampleCtl.

(** [start stop configure ttl]. *)
Lemma configure_without_value_raises_witness :
  for_each ["start"; "stop"; "configure"; "ttl"]
    (arg_step ["start"; "stop"; "configure"; "ttl"]) (fresh tt)
  = (inl IndexError, queued [plain_op "start"; plain_op "stop"] (fresh tt)).
Proof.
  apply (configure_without_value_raises ["start"; "stop"] "ttl" (fresh tt)).
  - repeat constructor; discriminate.
  - cbn. tauto.
Defined.

(** [configure zone_file restart]. *)
Lemma command_word_as_value_is_also_run_witness :
  for_each ["configure"; "zone_file"; "restart"]
    (arg_step ["configure"; "zone_file"; "restart"]) (fresh tt)
  = (inr tt, queued [configure_op "zone_file" "restart"; plain_op "restart"] (fresh tt)).
Proof.
  apply (command_word_as_value_is_also_run "zone_file" "restart" (fresh tt));
    cbn; tauto.
Defined.

(** [configure ttl 5 configure lport 5353]. *)
Lemma every_configure_repeats_the_first_witness :
  for_each ["configure"; "ttl"; "5"; "configure"; "lport"; "5353"]
    (arg_step ["configure"; "ttl"; "5"; "configure"; "lport"; "5353"]) (fresh tt)
  = (inr tt, queued [configure_op "ttl" "5"; configure_op "ttl" "5"] (fresh tt)).
Proof.
  apply (every_configure_repeats_the_first "ttl" "5" ["configure"; "lport"; "5353"]
           (fresh tt)).
  - cbn. tauto.
  - repeat constructor.
Defined.

(** [start frobnicate start]. *)
Lemma plain_commands_are_queued_in_order_witness :
  for_each ["start"; "frobnicate"; "start"]
    (arg_step ["start"; "frobnicate"; "start"]) (fresh tt)
  = (inr tt, queued [plain_op "start"; plain_op "start"] (fresh tt)).
Proof.
  apply (plain_commands_are_queued_in_order ["start"; "frobnicate"; "start"] (fresh tt)).
  repeat constructor; discriminate.
Defined.

(** The operations of [restart configure lport 53 stop]. *)
Lemma queued_operations_are_well_formed_witness :
  Forall well_formed
    (operations (snd (for_each ["restart"; "configure"; "lport"; "53"; "stop"]
                        (arg_step ["restart"; "configure"; "lport"; "53"; "stop"])
                        (fresh tt)))).
Proof.
  apply (queued_operations_are_well_formed
           ["restart"; "configure"; "lport"; "53"; "stop"] (fresh tt)).
  constructor.
Defined.

(** [dnsserverctl configure ttl] against the sample service. *)
Lemma script_ends_witness :
  fst (@script _ (bus host) (inr ([], ["configure"; "ttl"]))
         (fresh (DNSServerService_init cfg)))
  = inl IndexError.
Proof.
  destruct (@script_ends _ (bus host) [] ["configure"; "ttl"]
              (fresh (DNSServerService_init cfg)) IndexError)
    as [Hh | [Hh | [Hh | (e & Hc & _)]]]; try discriminate.
  - by_running.
  - by_running.
Defined.

End CtlFacts.
